(** * A relay server pairing two WebSocket clients by a 4-digit room code

    Shallow embedding of [src/server.js] (class [FileTransferServer]) and the
    properties of its room registry, message dispatch and cleanup.

    Conventions of the embedding.
    - A connection ([ws]) is an object compared by identity: a [nat].
    - A parsed message is a JavaScript value as [JSON.parse] builds it.
    - [this.rooms] is a JavaScript [Map]: an association list in insertion
      order (the order [entries()] iterates in), with the keys compared by
      SameValueZero.
    - [ws.send(JSON.stringify(o))] appends the object [o] to a log of sent
      messages, in sending order; sending itself never fails.
    - [Date.now()] readings are arguments of the handlers: [t1] is the first
      reading a handler takes and [t2] the second.
    - A [TypeError] raised inside a handler is an explicit outcome. *)

From Stdlib Require Import ZArith Ascii String.
From stdpp Require Import base tactics option list.

Local Open Scope string_scope.
Local Open Scope list_scope.

(** ** JavaScript values *)

Module JS.

(** A string is a sequence of code units; [string] holds the code units below
    256, which is every character the server itself inspects (digits, signs,
    white space, the letters of hexadecimal numerals).

    A number read by [JSON.parse] is held as the text [Number::toString] gives
    for it ([1234] as "1234", [1.5] as "1.5", [1e21] as "1e+21"): the server
    reads such a number only through that text (in the pattern test and in
    [parseInt]) and through SameValueZero, which on numbers is equality of
    that text. *)
#[warnings="-register-all"]
Inductive value : Type :=
| JUndefined
| JNull
| JBool (b : bool)
| JNum (text : string)
| JStr (s : string)
| JArr (elems : list value)
| JObj (props : list (string * value)).

(** The result of [parseInt]: [NaN], or the Number that [parseInt] makes of the
    integer [z] it has read. Beyond 2^53 that Number is a double next to [z];
    the only comparison made on it is with 200*1024*1024, far below, so [z]
    decides it. [-0] is not told apart from [0]: nothing the server does with
    the size can tell them apart. *)
Inductive number : Type :=
| NaN
| Num (z : Z).

Definition isObject (v : value) : bool :=
  match v with
  | JArr _ | JObj _ => true
  | _ => false
  end.

(** Own property [k] of an object built by [JSON.parse]: of a repeated key the
    last occurrence in the text is the one kept. *)
Fixpoint ownProperty (k : string) (props : list (string * value)) : option value :=
  match props with
  | [] => None
  | (k', v) :: rest =>
      match ownProperty k rest with
      | Some w => Some w
      | None => if String.eqb k' k then Some v else None
      end
  end.

(** [v.k] for the property names the server reads ([type], [code], [size],
    [name], [chunk]), none of which is inherited from a prototype: [None] is
    the TypeError of reading a property of [null] or [undefined]. *)
Definition Get (v : value) (k : string) : option value :=
  match v with
  | JUndefined | JNull => None
  | JObj props => Some (default JUndefined (ownProperty k props))
  | _ => Some JUndefined
  end.

(** [ToString]: [None] is the TypeError "Cannot convert object to primitive
    value", raised for an object whose own [toString] property (some JSON value,
    never a function) hides [Object.prototype.toString]. An array is joined
    with commas, [null] and [undefined] elements giving the empty string. *)
Fixpoint ToString (v : value) : option string :=
  match v with
  | JUndefined => Some "undefined"
  | JNull => Some "null"
  | JBool true => Some "true"
  | JBool false => Some "false"
  | JNum text => Some text
  | JStr s => Some s
  | JArr elems =>
      (fix join (l : list value) : option string :=
         match l with
         | [] => Some ""
         | x :: rest =>
             let element :=
               match x with
               | JUndefined | JNull => Some ""
               | _ => ToString x
               end in
             match element, rest with
             | None, _ => None
             | Some s, [] => Some s
             | Some s, _ :: _ =>
                 match join rest with
                 | Some r => Some (s ++ "," ++ r)%string
                 | None => None
                 end
             end
         end) elems
  | JObj props =>
      match ownProperty "toString" props with
      | Some _ => None
      | None => Some "[object Object]"
      end
  end.

(** [x === 'literal'] *)
Definition strictEqualsString (x : value) (literal : string) : bool :=
  match x with
  | JStr s => String.eqb s literal
  | _ => false
  end.

(** SameValueZero on primitives; two objects are the same only by identity,
    which the [Map] below tracks by a reference number. *)
Definition sameValueZero (a b : value) : bool :=
  match a, b with
  | JUndefined, JUndefined => true
  | JNull, JNull => true
  | JBool x, JBool y => Bool.eqb x y
  | JNum x, JNum y => String.eqb x y
  | JStr x, JStr y => String.eqb x y
  | _, _ => false
  end.

(** *** The pattern [/^\d{4}$/] *)

Definition isDigit (c : ascii) : bool :=
  (48 <=? nat_of_ascii c)%nat && (nat_of_ascii c <=? 57)%nat.

(** [/^\d{4}$/.test(s)] on a string: without the [m] flag [$] is the end of the
    input, and [\d] is the class 0-9. *)
Definition test_code (s : string) : bool :=
  match s with
  | String a (String b (String c (String d EmptyString))) =>
      isDigit a && isDigit b && isDigit c && isDigit d
  | _ => false
  end.

(** *** [parseInt] with no radix argument *)

Definition isWhiteSpace (c : ascii) : bool :=
  let n := nat_of_ascii c in
  ((9 <=? n)%nat && (n <=? 13)%nat) || (n =? 32)%nat || (n =? 160)%nat.

Fixpoint trimStart (s : string) : string :=
  match s with
  | String c rest => if isWhiteSpace c then trimStart rest else s
  | EmptyString => s
  end.

(** The value of a digit or letter as a numeral digit (0-9, a-z, A-Z). *)
Definition digitValue (c : ascii) : option Z :=
  let n := Z.of_nat (nat_of_ascii c) in
  if (48 <=? n)%Z && (n <=? 57)%Z then Some (n - 48)%Z
  else if (97 <=? n)%Z && (n <=? 122)%Z then Some (n - 87)%Z
  else if (65 <=? n)%Z && (n <=? 90)%Z then Some (n - 55)%Z
  else None.

(** The integer denoted by the longest prefix of radix-[R] digits of [s], from
    the digits read so far; [None] while no digit has been read. *)
Fixpoint readDigits (R : Z) (s : string) (acc : option Z) : option Z :=
  match s with
  | String c rest =>
      match digitValue c with
      | Some d =>
          if (d <? R)%Z
          then readDigits R rest (Some (default 0%Z acc * R + d)%Z)
          else acc
      | None => acc
      end
  | EmptyString => acc
  end.

(** The sign and the radix prefix that [parseInt] strips. *)
Definition readSign (s : string) : Z * string :=
  match s with
  | String "-" rest => ((-1)%Z, rest)
  | String "+" rest => (1%Z, rest)
  | _ => (1%Z, s)
  end.

Definition readPrefix (s : string) : Z * string :=
  match s with
  | String "0" (String "x" rest) => (16%Z, rest)
  | String "0" (String "X" rest) => (16%Z, rest)
  | _ => (10%Z, s)
  end.

Definition parseIntString (input : string) : number :=
  let '(sign, S1) := readSign (trimStart input) in
  let '(R, S2) := readPrefix S1 in
  match readDigits R S2 None with
  | None => NaN
  | Some mathInt => Num (sign * mathInt)
  end.

(** [parseInt(v)]: the argument is converted with [ToString] first. *)
Definition parseInt (v : value) : option number :=
  match ToString v with
  | Some s => Some (parseIntString s)
  | None => None
  end.

(** Decimal numerals: the text of the digits [ds], most significant first, and
    the integer it denotes. A string can hold any numeral. A number that is a
    non-negative integer of at most 2^53 has as its text the numeral of its
    value, without leading zeros; from 1e21 on the text of a number is in
    exponent form and no numeral. *)
Definition digitChar (d : nat) : ascii := ascii_of_nat (48 + d).

Fixpoint numeral (ds : list nat) : string :=
  match ds with
  | [] => EmptyString
  | d :: rest => String (digitChar d) (numeral rest)
  end.

Definition numeralValue (ds : list nat) : Z :=
  foldl (λ acc d, acc * 10 + Z.of_nat d)%Z 0%Z ds.

(** [x > bound] on Numbers, [bound] an integer: false for [NaN]. *)
Definition greaterThan (x : number) (bound : Z) : bool :=
  match x with
  | NaN => false
  | Num z => (bound <? z)%Z
  end.

(** [v.slice(0, n)]: a method of strings and of arrays only; on any other value
    [v.slice] is [undefined] (or a JSON value, for an object with such a
    property) and the call raises a TypeError. *)
Definition slice0 (v : value) (n : nat) : option value :=
  match v with
  | JStr s => Some (JStr (substring 0 n s))
  | JArr elems => Some (JArr (take n elems))
  | _ => None
  end.

End JS.
Import JS.

(** ** The room registry: [this.rooms = new Map()] *)

Definition conn := nat.

(** [room.metadata]: the object literal built by [handleMetadata]. *)
Record metadata := Metadata {
  name : value;
  size : number;
  type : value
}.

(** A room object; [receiver] and [metadata] start as [null]. *)
Record room := Room {
  sender : conn;
  receiver : option conn;
  meta : option metadata;
  createdAt : Z;
  lastActivity : Z
}.

(** A key of the [Map]. A primitive key is its value. An array or object used
    as a key is one particular object: it carries the reference number it got
    when it was stored, since an equal-looking array parsed from a later
    message is a different key. *)
Inductive key :=
| KPrim (v : value)
| KRef (ref : nat) (v : value).

Definition keyValue (k : key) : value :=
  match k with
  | KPrim v => v
  | KRef _ v => v
  end.

Module Map.

Abbreviation t := (list (key * room)).

(** SameValueZero of a stored key with the [code] of the message being
    handled: an array or object parsed from this message is a new object,
    identical to no stored key. *)
Definition matches (code : value) (k : key) : bool :=
  match k with
  | KPrim v => sameValueZero v code
  | KRef _ _ => false
  end.

(** SameValueZero of two keys taken from the map. *)
Definition sameKey (a b : key) : bool :=
  match a, b with
  | KPrim v, KPrim w => sameValueZero v w
  | KRef i _, KRef j _ => Nat.eqb i j
  | _, _ => false
  end.

(** [rooms.get(code)]: the room object, that is its position in the map and
    its present fields. *)
Definition get (code : value) (m : t) : option (nat * room) :=
  match list_find (λ e, matches code e.1 = true) m with
  | Some (i, (_, r)) => Some (i, r)
  | None => None
  end.

(** [rooms.has(code)] *)
Definition has (code : value) (m : t) : bool :=
  match get code m with
  | Some _ => true
  | None => false
  end.

(** [rooms.set(code, r)] for a [code] the map does not hold: a new entry at
    the end. [ref] is the reference number an array or object [code] gets. *)
Definition newKey (ref : nat) (code : value) : key :=
  if isObject code then KRef ref code else KPrim code.

Definition set_new (ref : nat) (code : value) (r : room) (m : t) : t :=
  m ++ [(newKey ref code, r)].

(** [rooms.delete(k)] for a key [k] taken from the map (or [null]). *)
Fixpoint delete (k : key) (m : t) : t :=
  match m with
  | [] => []
  | (k', r) :: rest => if sameKey k' k then rest else (k', r) :: delete k rest
  end.

(** Assignment to fields of the room object at position [i]. *)
Definition update (i : nat) (f : room → room) (m : t) : t :=
  alter (λ e, (e.1, f e.2)) i m.

(** What makes a list of entries a [Map]: a key is held by reference exactly
    when it is an array or object, and the keys are pairwise different. *)
Definition keyOk (k : key) : bool :=
  match k with
  | KPrim v => negb (isObject v)
  | KRef _ v => isObject v
  end.

Fixpoint distinct (ks : list key) : bool :=
  match ks with
  | [] => true
  | k :: rest => keyOk k && forallb (λ k', negb (sameKey k k')) rest && distinct rest
  end.

Definition wf (m : t) : bool := distinct (map fst m).

End Map.

(** ** Messages sent to the clients *)

(** The object given to [JSON.stringify] in each [send]. In [OutMetadata] the
    fields are those of [{type: 'metadata', ...room.metadata}], where the
    [type] of the spread metadata replaces the literal. *)
Inductive outbound :=
| OutError (message : string)
| OutRegistered (code : value)
| OutPeerConnected
| OutConnected (code : value)
| OutMetadata (m : metadata)
| OutChunk (chunk : value)
| OutComplete.

(** The error kinds of the specification and their message texts. *)
Definition InvalidFormat := OutError "Invalid message format".
Definition UnknownType := OutError "Unknown message type".
Definition InvalidCode := OutError "Invalid room code format".
Definition DuplicateCode := OutError "Room already exists".
Definition RoomNotFound := OutError "Room does not exist or has expired".
Definition RoomFull := OutError "Room is already occupied".
Definition FileTooLarge := OutError "File too large (max 500MB)".
Definition PeerDisconnected := OutError "Peer disconnected".

(** ** The server *)

(** [rooms] is [this.rooms]; [nextRef] numbers the objects stored as keys;
    [sent] is every [(ws, message)] sent so far, oldest first. *)
Record server := Server {
  rooms : Map.t;
  nextRef : nat;
  sent : list (conn * outbound)
}.

Definition initial : server := Server [] 0 [].

Definition send (ws : conn) (o : outbound) (st : server) : server :=
  Server (rooms st) (nextRef st) (sent st ++ [(ws, o)]).

Definition withRooms (m : Map.t) (st : server) : server :=
  Server m (nextRef st) (sent st).

(** How a handler ends: it returns, or a TypeError leaves it. *)
Inductive outcome :=
| Returned (st : server)
| Thrown (st : server).

Definition stateOf (o : outcome) : server :=
  match o with
  | Returned st => st
  | Thrown st => st
  end.

Definition sizeLimit : Z := 200 * 1024 * 1024.

(** [room.sender === ws || room.receiver === ws] *)
Definition occupies (ws : conn) (r : room) : bool :=
  Nat.eqb (sender r) ws ||
  match receiver r with
  | Some x => Nat.eqb x ws
  | None => false
  end.

(** The first entry, in iteration order, of a room that [ws] occupies. *)
Definition firstRoomOf (ws : conn) (m : Map.t) : option (nat * (key * room)) :=
  list_find (λ e, occupies ws e.2 = true) m.

Definition findRoomByClient (ws : conn) (m : Map.t) : option (nat * room) :=
  match firstRoomOf ws m with
  | Some (i, (_, r)) => Some (i, r)
  | None => None
  end.

Definition getRoomCode (ws : conn) (m : Map.t) : key :=
  match firstRoomOf ws m with
  | Some (_, (code, _)) => code
  | None => KPrim JNull
  end.

(** The assignments to the fields of a room object:
    [room.receiver = ws; room.lastActivity = Date.now()] in [joinRoom],
    [room.metadata = {...}; room.lastActivity = Date.now()] in [handleMetadata],
    [room.lastActivity = Date.now()] in [forwardChunk]. *)
Definition joined (ws : conn) (now : Z) (r : room) : room :=
  Room (sender r) (Some ws) (meta r) (createdAt r) now.

Definition withMetadata (md : metadata) (now : Z) (r : room) : room :=
  Room (sender r) (receiver r) (Some md) (createdAt r) now.

Definition touched (now : Z) (r : room) : room :=
  Room (sender r) (receiver r) (meta r) (createdAt r) now.

Definition createRoom (ws : conn) (code : value) (t1 t2 : Z) (st : server) : outcome :=
  match ToString code with
  | None => Thrown st
  | Some text =>
      if negb (test_code text) then Returned (send ws InvalidCode st)
      else if Map.has code (rooms st) then Returned (send ws DuplicateCode st)
      else
        let r := Room ws None None t1 t2 in
        let st1 :=
          Server (Map.set_new (nextRef st) code r (rooms st))
                 (if isObject code then S (nextRef st) else nextRef st)
                 (sent st) in
        Returned (send ws (OutRegistered code) st1)
  end.

Definition joinRoom (ws : conn) (code : value) (now : Z) (st : server) : outcome :=
  match ToString code with
  | None => Thrown st
  | Some text =>
      if negb (test_code text) then Returned (send ws InvalidCode st)
      else
        match Map.get code (rooms st) with
        | None => Returned (send ws RoomNotFound st)
        | Some (i, r) =>
            match receiver r with
            | Some _ => Returned (send ws RoomFull st)
            | None =>
                let st1 := withRooms (Map.update i (joined ws now) (rooms st)) st in
                let st2 := send (sender r) OutPeerConnected st1 in
                Returned (send ws (OutConnected code) st2)
            end
        end
  end.

Definition handleMetadata (ws : conn) (message : value) (now : Z) (st : server) : outcome :=
  match findRoomByClient ws (rooms st) with
  | None => Returned st
  | Some (i, r) =>
      match Get message "size" ≫= parseInt with
      | None => Thrown st
      | Some fileSize =>
          if greaterThan fileSize sizeLimit then Returned (send ws FileTooLarge st)
          else
            match Get message "name" ≫= (λ n, slice0 n 256), Get message "type" with
            | Some nm, Some ty =>
                let md := Metadata nm fileSize ty in
                let st1 := withRooms (Map.update i (withMetadata md now) (rooms st)) st in
                match receiver r with
                | Some rcv => Returned (send rcv (OutMetadata md) st1)
                | None => Returned st1
                end
            | _, _ => Thrown st
            end
      end
  end.

Definition forwardChunk (ws : conn) (message : value) (now : Z) (st : server) : outcome :=
  match findRoomByClient ws (rooms st) with
  | None => Returned st
  | Some (i, r) =>
      match receiver r with
      | None => Returned st
      | Some rcv =>
          let st1 := withRooms (Map.update i (touched now) (rooms st)) st in
          match Get message "chunk" with
          | None => Thrown st1
          | Some chunk => Returned (send rcv (OutChunk chunk) st1)
          end
      end
  end.

Definition handleTransferComplete (ws : conn) (message : value) (st : server) : server :=
  match findRoomByClient ws (rooms st) with
  | None => st
  | Some (_, r) =>
      match receiver r with
      | None => st
      | Some rcv =>
          let st1 := send rcv OutComplete st in
          withRooms (Map.delete (getRoomCode ws (rooms st1)) (rooms st1)) st1
      end
  end.

(** [room.sender === ws ? room.receiver : room.sender] *)
Definition otherClient (ws : conn) (r : room) : option conn :=
  if Nat.eqb (sender r) ws then receiver r else Some (sender r).

Definition cleanupRooms (ws : conn) (st : server) : server :=
  match firstRoomOf ws (rooms st) with
  | None => st
  | Some (_, (code, r)) =>
      let st1 :=
        match otherClient ws r with
        | Some other => send other PeerDisconnected st
        | None => st
        end in
      withRooms (Map.delete code (rooms st1)) st1
  end.

Definition handleMessage (ws : conn) (message : value) (t1 t2 : Z) (st : server) : outcome :=
  match Get message "type" with
  | None => Thrown st
  | Some ty =>
      if strictEqualsString ty "register" then
        match Get message "code" with
        | Some code => createRoom ws code t1 t2 st
        | None => Thrown st
        end
      else if strictEqualsString ty "join" then
        match Get message "code" with
        | Some code => joinRoom ws code t1 st
        | None => Thrown st
        end
      else if strictEqualsString ty "metadata" then handleMetadata ws message t1 st
      else if strictEqualsString ty "chunk" then forwardChunk ws message t1 st
      else if strictEqualsString ty "complete" then
        Returned (handleTransferComplete ws message st)
      else Returned (send ws UnknownType st)
  end.

(** The [message] listener: [parsed] is what [JSON.parse(message)] gives,
    [None] when it raises a SyntaxError. The [try] covers the parse and the
    dispatch alike. *)
Definition onMessage (ws : conn) (parsed : option value) (t1 t2 : Z) (st : server) : server :=
  match parsed with
  | None => send ws InvalidFormat st
  | Some data =>
      match handleMessage ws data t1 t2 st with
      | Returned st' => st'
      | Thrown st' => send ws InvalidFormat st'
      end
  end.

(** The [close] listener. *)
Definition onClose (ws : conn) (st : server) : server := cleanupRooms ws st.

(** ** Runs of the server *)

Inductive event :=
| Message (ws : conn) (parsed : option value) (t1 t2 : Z)
| Close (ws : conn).

Definition step (e : event) (st : server) : server :=
  match e with
  | Message ws parsed t1 t2 => onMessage ws parsed t1 t2 st
  | Close ws => onClose ws st
  end.

Definition run (es : list event) (st : server) : server :=
  foldl (λ s e, step e s) st es.

Inductive reachable : server → Prop :=
| reachable_initial : reachable initial
| reachable_step e st : reachable st → reachable (step e st).

(** The messages of the protocol, as [JSON.parse] returns them. *)
Definition register (code : value) : value :=
  JObj [("type", JStr "register"); ("code", code)].
Definition join (code : value) : value :=
  JObj [("type", JStr "join"); ("code", code)].
Definition complete : value := JObj [("type", JStr "complete")].

(** ** Occupancy *)

(** The roles [ws] holds in a room: 0, 1, or 2 when it is both its sender and
    its receiver. *)
Definition rolesIn (ws : conn) (r : room) : nat :=
  (if Nat.eqb (sender r) ws then 1 else 0) +
  match receiver r with
  | Some x => if Nat.eqb x ws then 1 else 0
  | None => 0
  end.

Definition roleCount (ws : conn) (m : Map.t) : nat :=
  sum_list_with (λ e, rolesIn ws e.2) m.

(** The number of live rooms in which [ws] has a role. *)
Definition roomCount (ws : conn) (m : Map.t) : nat :=
  length (filter (λ e, occupies ws e.2 = true) m).

(** Whether a message asks for a role: a [register] or a [join]. *)
Definition requestsRole (message : value) : bool :=
  match Get message "type" with
  | Some ty => strictEqualsString ty "register" || strictEqualsString ty "join"
  | None => false
  end.

(** Caller discipline: a role is only asked for by a connection that has
    none. The server does not check it. *)
Definition obeys (e : event) (st : server) : Prop :=
  match e with
  | Message ws (Some message) _ _ =>
      requestsRole message = true → findRoomByClient ws (rooms st) = None
  | _ => True
  end.

Inductive disciplined : server → Prop :=
| disciplined_initial : disciplined initial
| disciplined_step e st : disciplined st → obeys e st → disciplined (step e st).

(** The specification's single-lookup [complete]: the room resolved for [ws]
    is the one removed, with no second scan for its code. *)
Definition completeResolved (ws : conn) (st : server) : server :=
  match findRoomByClient ws (rooms st) with
  | None => st
  | Some (i, r) =>
      match receiver r with
      | None => st
      | Some rcv => withRooms (delete i (rooms st)) (send rcv OutComplete st)
      end
  end.

(** The state after an accepted metadata message for the room at position
    [i], whose fields were [r]. *)
Definition metadataStored (i : nat) (r : room) (md : metadata) (now : Z) (st : server) : server :=
  let st1 := withRooms (Map.update i (withMetadata md now) (rooms st)) st in
  match receiver r with
  | Some rcv => send rcv (OutMetadata md) st1
  | None => st1
  end.

(** The messages sent while the server went from [st] to [st']. *)
Definition newMessages (st st' : server) : list (conn * outbound) :=
  drop (length (sent st)) (sent st').

(** The invariants of reachable states. *)

(** Every key passes the pattern test. *)
Definition validKey (k : key) : Prop :=
  ∃ text, ToString (keyValue k) = Some text ∧ test_code text = true.

(** Reference numbers in use are below [nextRef]. *)
Definition refBelow (n : nat) (k : key) : Prop :=
  match k with
  | KPrim _ => True
  | KRef i _ => i < n
  end.

Definition registryInvariant (st : server) : Prop :=
  Map.wf (rooms st) = true ∧
  Forall validKey (rooms st).*1 ∧
  Forall (refBelow (nextRef st)) (rooms st).*1.

(** The connection an event comes from. *)
Definition actor (e : event) : conn :=
  match e with
  | Message ws _ _ _ => ws
  | Close ws => ws
  end.

(** [r'] is a later state of the room object [r]: the same sender and
    creation time, and the receiver it had, if it had one. *)
Definition laterStateOf (r r' : room) : Prop :=
  sender r' = sender r ∧ createdAt r' = createdAt r ∧
  ∀ x, receiver r = Some x → receiver r' = Some x.

(** Two connections share the room [r]. *)
Definition roommates (a b : conn) (r : room) : Prop :=
  occupies a r = true ∧ occupies b r = true.

(** The recipients of the messages [l] sent between [st] and [st'] are the
    requester [ws] and connections that share a room with it, in the state
    before or in the state after. *)
Definition inTheRoom (ws : conn) (st st' : server) (l : list (conn * outbound)) : Prop :=
  ∀ c o, (c, o) ∈ l →
    c = ws ∨ ∃ k r, ((k, r) ∈ rooms st ∨ (k, r) ∈ rooms st') ∧ roommates ws c r.

(** What holds of every metadata object the message listener has stored: its
    type is the tag of the message it came in, its size is not above the
    limit, and its name is a string or array of at most 256 items. *)
Definition storedMetadataOk (md : metadata) : Prop :=
  type md = JStr "metadata" ∧
  greaterThan (size md) sizeLimit = false ∧
  match name md with
  | JStr s => String.length s ≤ 256
  | JArr elems => length elems ≤ 256
  | _ => False
  end.

Definition roomMetadataOk (e : key * room) : Prop :=
  ∀ md, meta e.2 = Some md → storedMetadataOk md.

(** Tactics for goals about the log of sent messages. *)
Ltac log_simpl :=
  unfold newMessages, send, withRooms; simpl;
  rewrite <- ?app_assoc, ?drop_app_length, ?drop_all; simpl.

Ltac not_in_log :=
  rewrite ?not_elem_of_cons;
  unfold InvalidFormat, InvalidCode, DuplicateCode, RoomNotFound, RoomFull,
    FileTooLarge, UnknownType, PeerDisconnected;
  repeat split; try apply not_elem_of_nil; congruence.

(** * Properties *)

(** ** Sample evaluations *)

Example ToString_samples :
  ToString (JArr [JNum "1234"]) = Some "1234" /\
  ToString (JArr [JNull; JStr "a"; JArr [JBool true; JNum "2"]]) = Some ",a,true,2" /\
  ToString (JObj [("toString", JNum "1")]) = None /\
  ToString (JObj [("code", JStr "1234")]) = Some "[object Object]".
Proof. repeat split; reflexivity. Qed.

Example parseInt_samples :
  parseIntString "  42px" = Num 42 /\
  parseIntString "-0x1F" = Num (-31) /\
  parseIntString "1e+21" = Num 1 /\
  parseIntString "undefined" = NaN /\
  parseIntString "0x" = NaN /\
  parseIntString "209715201" = Num 209715201.
Proof. repeat split; reflexivity. Qed.

Example test_code_samples :
  test_code "1234" = true /\ test_code "123" = false /\
  test_code "12345" = false /\ test_code "12a4" = false /\
  test_code (String.append "1234" (String (ascii_of_nat 10) "")) = false.
Proof. repeat split; reflexivity. Qed.

(** A code sent as the number 1234 passes the pattern test and is a key
    different from the string "1234"; a code sent as the array ["1234"] passes
    it too and is a key of its own each time. *)
Example codes_that_are_not_strings :
  let st := run [Message 1 (Some (register (JStr "1234"))) 10 11;
                 Message 2 (Some (register (JNum "1234"))) 12 13;
                 Message 3 (Some (register (JArr [JStr "1234"]))) 14 15;
                 Message 4 (Some (register (JArr [JStr "1234"]))) 16 17;
                 Message 5 (Some (join (JArr [JStr "1234"]))) 18 18] initial in
  rooms st = [(KPrim (JStr "1234"), Room 1 None None 10 11);
              (KPrim (JNum "1234"), Room 2 None None 12 13);
              (KRef 0 (JArr [JStr "1234"]), Room 3 None None 14 15);
              (KRef 1 (JArr [JStr "1234"]), Room 4 None None 16 17)] /\
  last (sent st) = Some (5, RoomNotFound).
Proof. vm_compute. auto. Qed.

Example scenario :
  let st := run [Message 1 (Some (register (JStr "1234"))) 10 11;
                 Message 2 (Some (join (JStr "1234"))) 20 20] initial in
  rooms st = [(KPrim (JStr "1234"), Room 1 (Some 2) None 10 20)] /\
  sent st = [(1, OutRegistered (JStr "1234")); (1, OutPeerConnected);
             (2, OutConnected (JStr "1234"))] /\
  rooms (step (Message 1 (Some complete) 30 30) st) = [].
Proof. vm_compute. auto. Qed.

(** ** The registry as a [Map] *)

Lemma sameValueZero_eq a b : sameValueZero a b = true → a = b.
Proof.
  destruct a, b; simpl; try discriminate; try reflexivity.
  - intros H. apply Bool.eqb_prop in H. by subst.
  - intros H. apply String.eqb_eq in H. by subst.
  - intros H. apply String.eqb_eq in H. by subst.
Qed.

Lemma sameValueZero_refl v : isObject v = false → sameValueZero v v = true.
Proof.
  destruct v; simpl; try discriminate; auto using Bool.eqb_reflx, String.eqb_refl.
Qed.

Lemma sameKey_refl k : Map.keyOk k = true → Map.sameKey k k = true.
Proof.
  destruct k as [v|i v]; simpl.
  - intros H. apply sameValueZero_refl. by destruct (isObject v).
  - intros _. apply Nat.eqb_refl.
Qed.

Lemma distinct_cons k ks :
  Map.distinct (k :: ks) = true ↔
  Map.keyOk k = true ∧ Forall (λ k', Map.sameKey k k' = false) ks ∧ Map.distinct ks = true.
Proof.
  simpl. rewrite !andb_true_iff, forallb_forall, Forall_forall.
  setoid_rewrite negb_true_iff. setoid_rewrite <- list_elem_of_In. tauto.
Qed.

Lemma distinct_snoc ks k :
  Map.distinct (ks ++ [k]) = true ↔
  Map.distinct ks = true ∧ Map.keyOk k = true ∧ Forall (λ k', Map.sameKey k' k = false) ks.
Proof.
  induction ks as [|k0 ks IH].
  - simpl. rewrite !andb_true_r. split; [intros H | intros (_ & H & _)]; auto.
  - rewrite <- app_comm_cons, !distinct_cons, IH, Forall_app, Forall_singleton.
    rewrite (Forall_cons _ k0 ks). tauto.
Qed.

Lemma update_keys i f (m : Map.t) : (Map.update i f m).*1 = m.*1.
Proof.
  unfold Map.update. revert i. induction m as [|[k r] m IH]; intros [|i]; simpl; auto.
  f_equal. apply IH.
Qed.

Lemma update_wf i f (m : Map.t) : Map.wf (Map.update i f m) = Map.wf m.
Proof. unfold Map.wf. by rewrite update_keys. Qed.

Lemma update_length i f (m : Map.t) : length (Map.update i f m) = length m.
Proof. unfold Map.update. apply length_alter. Qed.

Lemma update_lookup i f (m : Map.t) k r :
  m !! i = Some (k, r) → Map.update i f m !! i = Some (k, f r).
Proof. intros H. unfold Map.update. by rewrite list_lookup_alter_eq, H. Qed.

Lemma update_lookup_ne i j f (m : Map.t) :
  i ≠ j → Map.update i f m !! j = m !! j.
Proof. intros H. unfold Map.update. by apply list_lookup_alter_ne. Qed.

(** Deleting the key of the entry at position [i] removes that entry. *)
Lemma delete_key_at (m : Map.t) i k r :
  Map.wf m = true → m !! i = Some (k, r) → Map.delete k m = delete i m.
Proof.
  unfold Map.wf. revert i. induction m as [|[k0 r0] m IH]; intros i Hwf Hi; [done|].
  simpl in Hwf. apply distinct_cons in Hwf as (Hok & Hne & Hwf).
  destruct i as [|i]; simpl in *.
  - injection Hi as -> ->. by rewrite sameKey_refl.
  - assert (Map.sameKey k0 k = false) as ->.
    { rewrite Forall_forall in Hne. apply Hne.
      apply list_elem_of_fmap. exists (k, r). split; [done|].
      by apply list_elem_of_lookup_2 with i. }
    f_equal. by apply IH.
Qed.

Lemma delete_sublist k (m : Map.t) : sublist (Map.delete k m) m.
Proof.
  induction m as [|[k0 r0] m IH]; simpl; [constructor|].
  destruct (Map.sameKey k0 k); [by apply sublist_cons | by apply sublist_skip].
Qed.

Lemma distinct_sublist ks ks' :
  sublist ks ks' → Map.distinct ks' = true → Map.distinct ks = true.
Proof.
  induction 1 as [|k l1 l2 Hsub IH|k l1 l2 Hsub IH]; [done| |].
  - rewrite !distinct_cons. intros (? & Hne & ?). split_and!; auto.
    rewrite Forall_forall in *. eauto using elem_of_sublist.
  - rewrite distinct_cons. intros (_ & _ & ?). auto.
Qed.

Lemma delete_wf k (m : Map.t) : Map.wf m = true → Map.wf (Map.delete k m) = true.
Proof.
  unfold Map.wf. apply distinct_sublist. apply fmap_sublist, delete_sublist.
Qed.

Lemma firstRoomOf_Some ws (m : Map.t) i k r :
  firstRoomOf ws m = Some (i, (k, r)) ↔
  m !! i = Some (k, r) ∧ occupies ws r = true ∧
  ∀ j e, m !! j = Some e → j < i → occupies ws e.2 ≠ true.
Proof. unfold firstRoomOf. by rewrite list_find_Some. Qed.

Lemma firstRoomOf_None ws (m : Map.t) :
  firstRoomOf ws m = None ↔ Forall (λ e, occupies ws e.2 ≠ true) m.
Proof. unfold firstRoomOf. by rewrite list_find_None. Qed.

Lemma findRoomByClient_Some ws (m : Map.t) i r :
  findRoomByClient ws m = Some (i, r) ↔ ∃ k, firstRoomOf ws m = Some (i, (k, r)).
Proof.
  unfold findRoomByClient. destruct (firstRoomOf ws m) as [[j [k' r']]|].
  - split; [intros [= -> ->]; eauto | intros [k [= -> _ ->]]; done].
  - split; [done | intros [k [=]]].
Qed.

Lemma findRoomByClient_None ws (m : Map.t) :
  findRoomByClient ws m = None ↔ firstRoomOf ws m = None.
Proof.
  unfold findRoomByClient. destruct (firstRoomOf ws m) as [[j [k' r']]|]; split; done.
Qed.

Lemma getRoomCode_Some ws (m : Map.t) i k r :
  firstRoomOf ws m = Some (i, (k, r)) → getRoomCode ws m = k.
Proof. unfold getRoomCode. by intros ->. Qed.

Lemma get_Some code (m : Map.t) i r :
  Map.get code m = Some (i, r) →
  ∃ k, m !! i = Some (k, r) ∧ Map.matches code k = true.
Proof.
  unfold Map.get.
  destruct (list_find _ m) as [[j [k r']]|] eqn:Hfind; [|done].
  intros [= -> ->]. apply list_find_Some in Hfind as (? & ? & _). eauto.
Qed.

Lemma has_false code (m : Map.t) :
  Map.has code m = false → Forall (λ k, Map.matches code k = false) m.*1.
Proof.
  unfold Map.has, Map.get.
  destruct (list_find _ m) as [[j [k r']]|] eqn:Hfind; [done|]. intros _.
  apply list_find_None in Hfind. apply Forall_fmap.
  eapply Forall_impl; [exact Hfind|]. intros e He. by apply not_true_is_false.
Qed.

(** A key that matches the code of a message is that code. *)
Lemma matches_eq code k : Map.matches code k = true → k = KPrim code.
Proof. destruct k; simpl; [|done]. by intros ->%sameValueZero_eq. Qed.

(** *** The invariant of reachable states *)

Lemma invariant_send ws o st : registryInvariant (send ws o st) ↔ registryInvariant st.
Proof. done. Qed.

Lemma invariant_update i f st :
  registryInvariant st → registryInvariant (withRooms (Map.update i f (rooms st)) st).
Proof.
  unfold registryInvariant. simpl. by rewrite update_wf, update_keys.
Qed.

Lemma invariant_delete k st :
  registryInvariant st → registryInvariant (withRooms (Map.delete k (rooms st)) st).
Proof.
  unfold registryInvariant. simpl. intros (Hwf & Hvalid & Hrefs).
  assert (sublist (Map.delete k (rooms st)).*1 (rooms st).*1) as Hsub
    by apply fmap_sublist, delete_sublist.
  split_and!; [by apply delete_wf| |];
    rewrite Forall_forall in *; eauto using elem_of_sublist.
Qed.

Lemma invariant_createRoom ws code t1 t2 st :
  registryInvariant st → registryInvariant (stateOf (createRoom ws code t1 t2 st)).
Proof.
  intros Hinv. unfold createRoom.
  destruct (ToString code) as [text|] eqn:Htext; [|done].
  destruct (test_code text) eqn:Htest; [|done]. simpl.
  destruct (Map.has code (rooms st)) eqn:Hhas; [done|]. simpl.
  destruct Hinv as (Hwf & Hvalid & Hrefs). apply has_false in Hhas.
  unfold registryInvariant, Map.wf, Map.set_new, Map.newKey. simpl.
  rewrite !fmap_app. simpl. rewrite distinct_snoc, !Forall_app, !Forall_singleton.
  split_and!; [done| | | done | | |].
  - by destruct (isObject code) eqn:Hobj; simpl; rewrite Hobj.
  - clear Hvalid Hwf. induction Hhas as [|k ks Hk _ IH]; [done|].
    apply Forall_cons in Hrefs as [Href Hrefs]. constructor; [|by apply IH].
    destruct (isObject code), k as [v|j v]; simpl in *; try done.
    apply Nat.eqb_neq. lia.
  - exists text. by destruct (isObject code).
  - eapply Forall_impl; [exact Hrefs|]. intros [v|j v]; simpl; [done|].
    destruct (isObject code); lia.
  - destruct (isObject code); simpl; [lia|done].
Qed.

Lemma invariant_joinRoom ws code now st :
  registryInvariant st → registryInvariant (stateOf (joinRoom ws code now st)).
Proof.
  intros Hinv. unfold joinRoom.
  destruct (ToString code) as [text|]; [|done].
  destruct (test_code text); [|done]. simpl.
  destruct (Map.get code (rooms st)) as [[i r]|]; [|done].
  destruct (receiver r); [done|]. simpl. by apply invariant_update.
Qed.

Lemma invariant_handleMetadata ws message now st :
  registryInvariant st → registryInvariant (stateOf (handleMetadata ws message now st)).
Proof.
  intros Hinv. unfold handleMetadata.
  destruct (findRoomByClient ws (rooms st)) as [[i r]|]; [|done].
  destruct (Get message "size" ≫= parseInt) as [fileSize|]; [|done].
  destruct (greaterThan fileSize sizeLimit); [done|].
  destruct (Get message "name" ≫= _) as [nm|]; [|done].
  destruct (Get message "type") as [ty|]; [|done].
  destruct (receiver r); simpl; by apply invariant_update.
Qed.

Lemma invariant_forwardChunk ws message now st :
  registryInvariant st → registryInvariant (stateOf (forwardChunk ws message now st)).
Proof.
  intros Hinv. unfold forwardChunk.
  destruct (findRoomByClient ws (rooms st)) as [[i r]|]; [|done].
  destruct (receiver r); [|done].
  destruct (Get message "chunk"); simpl; by apply invariant_update.
Qed.

Lemma invariant_handleTransferComplete ws message st :
  registryInvariant st → registryInvariant (handleTransferComplete ws message st).
Proof.
  intros Hinv. unfold handleTransferComplete.
  destruct (findRoomByClient ws (rooms st)) as [[i r]|]; [|done].
  destruct (receiver r); [|done]. by apply (invariant_delete _ (send _ _ st)).
Qed.

Lemma invariant_cleanupRooms ws st :
  registryInvariant st → registryInvariant (cleanupRooms ws st).
Proof.
  intros Hinv. unfold cleanupRooms.
  destruct (firstRoomOf ws (rooms st)) as [[i [code r]]|]; [|done].
  destruct (otherClient ws r);
    [by apply (invariant_delete _ (send _ _ st)) | by apply invariant_delete].
Qed.

Lemma invariant_handleMessage ws message t1 t2 st :
  registryInvariant st → registryInvariant (stateOf (handleMessage ws message t1 t2 st)).
Proof.
  intros Hinv. unfold handleMessage.
  destruct (Get message "type") as [ty|]; [|done].
  repeat case_match; simpl;
    auto using invariant_createRoom, invariant_joinRoom, invariant_handleMetadata,
      invariant_forwardChunk, invariant_handleTransferComplete.
Qed.

Lemma invariant_step e st : registryInvariant st → registryInvariant (step e st).
Proof.
  intros Hinv. destruct e as [ws [data|] t1 t2|ws]; simpl.
  - unfold onMessage. pose proof (invariant_handleMessage ws data t1 t2 st Hinv) as H.
    by destruct (handleMessage ws data t1 t2 st).
  - done.
  - by apply invariant_cleanupRooms.
Qed.

(** Every reachable registry is a [Map] of valid codes. *)
Lemma reachable_invariant st : reachable st → registryInvariant st.
Proof.
  induction 1 as [|e st _ IH]; [|by apply invariant_step].
  repeat split; constructor.
Qed.

Lemma get_valid code st i r :
  registryInvariant st → Map.get code (rooms st) = Some (i, r) →
  ∃ text, ToString code = Some text ∧ test_code text = true.
Proof.
  intros (_ & Hvalid & _) (k & Hi & ->%matches_eq)%get_Some.
  rewrite Forall_forall in Hvalid. apply (Hvalid (KPrim code)).
  apply list_elem_of_fmap. exists (KPrim code, r). eauto using list_elem_of_lookup_2.
Qed.

(** Assigning to fields of a room does not move any room. *)
Lemma get_update code i f (m : Map.t) :
  Map.get code (Map.update i f m) =
  (λ '(j, r), (j, if decide (j = i) then f r else r)) <$> Map.get code m.
Proof.
  unfold Map.get, Map.update. revert i.
  induction m as [|[k r] m IH]; intros i; [done|].
  destruct i as [|i]; simpl.
  - case_decide; [done|].
    destruct (list_find _ m) as [[j [k' r']]|]; simpl; done.
  - case_decide; [done|]. specialize (IH i).
    change (list_alter ?g i m) with (alter g i m).
    destruct (list_find _ (alter _ i m)) as [[j [k' r']]|];
      destruct (list_find _ m) as [[j0 [k0 r0]]|]; simpl in *; try done.
    injection IH as -> ->. f_equal. f_equal.
    repeat case_decide; done || lia.
Qed.

(** ** Validation of the room code *)

(** The pattern accepts exactly the strings of four decimal digits. *)
Lemma test_code_true s :
  test_code s = true ↔
  ∃ a b c d, s = String a (String b (String c (String d EmptyString))) ∧
    isDigit a = true ∧ isDigit b = true ∧ isDigit c = true ∧ isDigit d = true.
Proof.
  split.
  - destruct s as [|a [|b [|c [|d [|]]]]]; simpl; try discriminate.
    rewrite !andb_true_iff. intros [[[? ?] ?] ?]. by exists a, b, c, d.
  - intros (a & b & c & d & -> & Ha & Hb & Hc & Hd). simpl. by rewrite Ha, Hb, Hc, Hd.
Qed.

Lemma createRoom_invalid ws code text t1 t2 st :
  ToString code = Some text → test_code text = false →
  createRoom ws code t1 t2 st = Returned (send ws InvalidCode st).
Proof. intros Htext Htest. unfold createRoom. by rewrite Htext, Htest. Qed.

Lemma joinRoom_invalid ws code text now st :
  ToString code = Some text → test_code text = false →
  joinRoom ws code now st = Returned (send ws InvalidCode st).
Proof. intros Htext Htest. unfold joinRoom. by rewrite Htext, Htest. Qed.

Lemma dispatch_register ws message code t1 t2 st :
  Get message "type" = Some (JStr "register") → Get message "code" = Some code →
  handleMessage ws message t1 t2 st = createRoom ws code t1 t2 st.
Proof. intros Hty Hcode. unfold handleMessage. by rewrite Hty, Hcode. Qed.

Lemma dispatch_join ws message code t1 t2 st :
  Get message "type" = Some (JStr "join") → Get message "code" = Some code →
  handleMessage ws message t1 t2 st = joinRoom ws code t1 st.
Proof. intros Hty Hcode. unfold handleMessage. by rewrite Hty, Hcode. Qed.

(** C2. A code string that the pattern [^\d{4}$] does not match is refused by
    [register] and by [join] alike, in the handlers and through the
    dispatcher: the only effect is the InvalidCode reply to the requesting
    connection; the registry is the one before, with no room created and none
    changed. *)
Theorem invalid_code_rejected ws (s : string) message t1 t2 st :
  test_code s = false →
  Get message "code" = Some (JStr s) →
  createRoom ws (JStr s) t1 t2 st = Returned (send ws InvalidCode st) ∧
  joinRoom ws (JStr s) t1 st = Returned (send ws InvalidCode st) ∧
  (Get message "type" = Some (JStr "register") ∨ Get message "type" = Some (JStr "join") →
   onMessage ws (Some message) t1 t2 st = send ws InvalidCode st) ∧
  rooms (send ws InvalidCode st) = rooms st ∧
  sent (send ws InvalidCode st) = sent st ++ [(ws, InvalidCode)].
Proof.
  intros Htest Hcode.
  assert (createRoom ws (JStr s) t1 t2 st = Returned (send ws InvalidCode st)) as Hc
    by by apply createRoom_invalid with s.
  assert (joinRoom ws (JStr s) t1 st = Returned (send ws InvalidCode st)) as Hj
    by by apply joinRoom_invalid with s.
  split_and!; [done|done| |done|done].
  unfold onMessage. intros [Hty|Hty].
  - by rewrite (dispatch_register _ _ _ _ _ _ Hty Hcode), Hc.
  - by rewrite (dispatch_join _ _ _ _ _ _ Hty Hcode), Hj.
Qed.

Lemma invalid_code_rejected_witness :
  let st := run [Message 1 (Some (register (JStr "1234"))) 10 11] initial in
  onMessage 2 (Some (join (JStr "12345"))) 20 20 st = send 2 InvalidCode st ∧
  rooms (send 2 InvalidCode st) = [(KPrim (JStr "1234"), Room 1 None None 10 11)].
Proof.
  intros st.
  destruct (invalid_code_rejected 2 "12345" (join (JStr "12345")) 20 20 st)
    as (_ & _ & H & _); [reflexivity|reflexivity|].
  split; [apply H; right; reflexivity | reflexivity].
Defined.

(** ** Registering a code that is taken *)

Lemma createRoom_duplicate ws code text t1 t2 st :
  ToString code = Some text → test_code text = true →
  Map.has code (rooms st) = true →
  createRoom ws code t1 t2 st = Returned (send ws DuplicateCode st).
Proof. intros Htext Htest Hhas. unfold createRoom. by rewrite Htext, Htest, Hhas. Qed.

(** C3. [register] with a valid 4-digit code that maps to a live room, from
    whatever connection, is answered with DuplicateCode and nothing else
    happens: the registry is the same list of rooms, so the room keeps its
    sender, receiver, metadata, createdAt and lastActivity, and no room is
    added. *)
Theorem duplicate_code_rejected ws (s : string) i r t1 t2 st :
  test_code s = true →
  Map.get (JStr s) (rooms st) = Some (i, r) →
  let st' := onMessage ws (Some (register (JStr s))) t1 t2 st in
  createRoom ws (JStr s) t1 t2 st = Returned st' ∧
  st' = send ws DuplicateCode st ∧
  rooms st' = rooms st ∧
  length (rooms st') = length (rooms st) ∧
  Map.get (JStr s) (rooms st') = Some (i, r) ∧
  sent st' = sent st ++ [(ws, DuplicateCode)].
Proof.
  intros Htest Hget st'.
  assert (createRoom ws (JStr s) t1 t2 st = Returned (send ws DuplicateCode st)) as Hc.
  { apply createRoom_duplicate with s; [done|done|]. unfold Map.has. by rewrite Hget. }
  assert (st' = send ws DuplicateCode st) as ->.
  { unfold st', onMessage.
    by rewrite (dispatch_register ws (register (JStr s)) (JStr s) t1 t2 st eq_refl eq_refl), Hc. }
  by split_and!.
Qed.

Lemma duplicate_code_rejected_witness :
  let st := run [Message 1 (Some (register (JStr "1234"))) 10 11;
                 Message 2 (Some (join (JStr "1234"))) 20 20] initial in
  rooms (onMessage 3 (Some (register (JStr "1234"))) 30 31 st) =
    [(KPrim (JStr "1234"), Room 1 (Some 2) None 10 20)].
Proof.
  intros st.
  destruct (duplicate_code_rejected 3 "1234" 0 (Room 1 (Some 2) None 10 20) 30 31 st)
    as (_ & _ & H & _); [reflexivity|reflexivity|].
  rewrite H. reflexivity.
Defined.

(** ** Joining a room *)

Lemma joinRoom_full ws code text now st i r x :
  ToString code = Some text → test_code text = true →
  Map.get code (rooms st) = Some (i, r) → receiver r = Some x →
  joinRoom ws code now st = Returned (send ws RoomFull st).
Proof.
  intros Htext Htest Hget Hrcv. unfold joinRoom. by rewrite Htext, Htest, Hget, Hrcv.
Qed.

Lemma joinRoom_free ws code text now st i r :
  ToString code = Some text → test_code text = true →
  Map.get code (rooms st) = Some (i, r) → receiver r = None →
  joinRoom ws code now st =
  Returned (send ws (OutConnected code)
             (send (sender r) OutPeerConnected
                (withRooms (Map.update i (joined ws now) (rooms st)) st))).
Proof.
  intros Htext Htest Hget Hrcv. unfold joinRoom. by rewrite Htext, Htest, Hget, Hrcv.
Qed.

(** C4. In a reachable state, for a room that the registry holds under [code]:
    if its receiver is set, [join] with that code is answered with RoomFull
    and the registry is unchanged, so the receiver is not overwritten; if its
    receiver is unset, [join] makes the joining connection the receiver and
    sets lastActivity, leaving the room's other fields, its place and every
    other room as they were, and sends peerConnected to the sender and then
    connected, with the code, to the joining connection. *)
Theorem join_full_or_free st ws code i r now t2 :
  reachable st →
  Map.get code (rooms st) = Some (i, r) →
  let st' := onMessage ws (Some (join code)) now t2 st in
  joinRoom ws code now st = Returned st' ∧
  match receiver r with
  | Some x =>
      st' = send ws RoomFull st ∧
      rooms st' = rooms st ∧
      Map.get code (rooms st') = Some (i, r) ∧
      sent st' = sent st ++ [(ws, RoomFull)]
  | None =>
      Map.get code (rooms st') =
        Some (i, Room (sender r) (Some ws) (meta r) (createdAt r) now) ∧
      (∀ j, j ≠ i → rooms st' !! j = rooms st !! j) ∧
      length (rooms st') = length (rooms st) ∧
      sent st' = sent st ++ [(sender r, OutPeerConnected); (ws, OutConnected code)]
  end.
Proof.
  intros Hreach Hget st'.
  destruct (get_valid code st i r (reachable_invariant st Hreach) Hget)
    as (text & Htext & Htest).
  assert (st' = stateOf (joinRoom ws code now st)) as Hst'.
  { unfold st', onMessage.
    rewrite (dispatch_join ws (join code) code now t2 st eq_refl eq_refl).
    unfold joinRoom. rewrite Htext, Htest, Hget. simpl. by destruct (receiver r). }
  destruct (receiver r) as [x|] eqn:Hrcv.
  - rewrite (joinRoom_full ws code text now st i r x) in * by done.
    simpl in Hst'. by rewrite Hst'.
  - rewrite (joinRoom_free ws code text now st i r) in * by done.
    simpl in Hst'. rewrite Hst'. simpl. split_and!.
    + done.
    + rewrite get_update, Hget. simpl. by rewrite decide_True.
    + intros j Hj. by apply update_lookup_ne.
    + apply update_length.
    + by rewrite <- app_assoc.
Qed.

Lemma join_full_or_free_witness :
  let st := run [Message 1 (Some (register (JStr "1234"))) 10 11] initial in
  let st' := onMessage 2 (Some (join (JStr "1234"))) 20 21 st in
  rooms st' = [(KPrim (JStr "1234"), Room 1 (Some 2) None 10 20)] ∧
  sent st' = sent st ++ [(1, OutPeerConnected); (2, OutConnected (JStr "1234"))].
Proof.
  intros st st'.
  assert (reachable st) as Hreach by (apply reachable_step, reachable_initial).
  destruct (join_full_or_free st 2 (JStr "1234") 0 (Room 1 None None 10 11) 20 21 Hreach)
    as (_ & _ & _ & _ & H); [reflexivity|].
  split; [reflexivity | exact H].
Defined.

(** ** Sizes written as decimal numerals *)

Lemma digitValue_digitChar d : d < 10 → digitValue (digitChar d) = Some (Z.of_nat d).
Proof. intros Hd. do 10 (destruct d as [|d]; [reflexivity|]). lia. Qed.

Lemma readDigits_cons R c rest acc :
  readDigits R (String c rest) acc =
  match digitValue c with
  | Some d => if (d <? R)%Z then readDigits R rest (Some (default 0%Z acc * R + d)%Z) else acc
  | None => acc
  end.
Proof. reflexivity. Qed.

Lemma readDigits_numeral ds acc :
  Forall (λ d, d < 10) ds →
  readDigits 10 (numeral ds) (Some acc) =
  Some (foldl (λ a d, a * 10 + Z.of_nat d)%Z acc ds).
Proof.
  intros Hds. revert acc. induction Hds as [|d ds Hd _ IH]; intros acc; [done|].
  cbn [numeral foldl]. rewrite readDigits_cons, digitValue_digitChar by done.
  assert ((Z.of_nat d <? 10)%Z = true) as -> by (apply Z.ltb_lt; lia).
  apply IH.
Qed.

Lemma numeral_shape d ds :
  Forall (λ d, d < 10) (d :: ds) →
  trimStart (numeral (d :: ds)) = numeral (d :: ds) ∧
  readSign (numeral (d :: ds)) = (1%Z, numeral (d :: ds)) ∧
  readPrefix (numeral (d :: ds)) = (10%Z, numeral (d :: ds)).
Proof.
  intros [Hd Hds]%Forall_cons. cbn [numeral].
  destruct d as [|d].
  - destruct Hds as [|d' ds Hd' _]; [done|]. cbn [numeral].
    do 10 (destruct d' as [|d']; [done|]). lia.
  - do 9 (destruct d as [|d]; [done|]). lia.
Qed.

(** [parseInt] reads a decimal numeral, with or without a minus sign, as the
    integer it denotes. *)
Lemma parseInt_numeral d ds :
  Forall (λ d, d < 10) (d :: ds) →
  parseIntString (numeral (d :: ds)) = Num (numeralValue (d :: ds)) ∧
  parseIntString (String "-" (numeral (d :: ds))) = Num (- numeralValue (d :: ds)).
Proof.
  intros Hall. destruct (numeral_shape d ds Hall) as (Htrim & Hsign & Hprefix).
  assert (readDigits 10 (numeral (d :: ds)) None = Some (numeralValue (d :: ds))) as Hread.
  { apply Forall_cons in Hall as [Hd Hds]. cbn [numeral].
    rewrite readDigits_cons, digitValue_digitChar by done.
    assert ((Z.of_nat d <? 10)%Z = true) as -> by (apply Z.ltb_lt; lia).
    by rewrite readDigits_numeral. }
  split; unfold parseIntString.
  - rewrite Htrim, Hsign. cbv iota beta. rewrite Hprefix. cbv iota beta.
    rewrite Hread. f_equal; lia.
  - change (readSign (trimStart (String "-" (numeral (d :: ds)))))
      with ((-1)%Z, numeral (d :: ds)).
    cbv iota beta. rewrite Hprefix. cbv iota beta. rewrite Hread. f_equal; lia.
Qed.

(** ** Metadata and the size limit *)

Lemma findRoomByClient_lookup ws (m : Map.t) i r :
  findRoomByClient ws m = Some (i, r) →
  ∃ k, m !! i = Some (k, r) ∧ occupies ws r = true.
Proof.
  intros [k Hk]%findRoomByClient_Some. apply firstRoomOf_Some in Hk as (? & ? & _). eauto.
Qed.

Lemma dispatch_metadata ws message t1 t2 st :
  Get message "type" = Some (JStr "metadata") →
  handleMessage ws message t1 t2 st = handleMetadata ws message t1 st.
Proof. intros Hty. unfold handleMessage. by rewrite Hty. Qed.

Lemma handleMetadata_too_large ws message now st i r fileSize :
  findRoomByClient ws (rooms st) = Some (i, r) →
  Get message "size" ≫= parseInt = Some fileSize →
  greaterThan fileSize sizeLimit = true →
  handleMetadata ws message now st = Returned (send ws FileTooLarge st).
Proof. intros Hroom Hsize Hgt. unfold handleMetadata. by rewrite Hroom, Hsize, Hgt. Qed.

Lemma handleMetadata_accepted ws message now st i r fileSize nm :
  findRoomByClient ws (rooms st) = Some (i, r) →
  Get message "size" ≫= parseInt = Some fileSize →
  greaterThan fileSize sizeLimit = false →
  Get message "name" ≫= (λ n, slice0 n 256) = Some nm →
  ∃ ty, Get message "type" = Some ty ∧
    handleMetadata ws message now st =
    Returned (metadataStored i r (Metadata nm fileSize ty) now st).
Proof.
  intros Hroom Hsize Hgt Hname. unfold handleMetadata, metadataStored.
  rewrite Hroom, Hsize, Hgt, Hname.
  destruct (Get message "type") as [ty|] eqn:Hty.
  - exists ty. split; [done|]. by destruct (receiver r).
  - by destruct message.
Qed.

Lemma metadataStored_rooms i r k md now st :
  rooms st !! i = Some (k, r) →
  rooms (metadataStored i r md now st) = Map.update i (withMetadata md now) (rooms st) ∧
  rooms (metadataStored i r md now st) !! i =
    Some (k, Room (sender r) (receiver r) (Some md) (createdAt r) now) ∧
  (∀ j, j ≠ i → rooms (metadataStored i r md now st) !! j = rooms st !! j) ∧
  sent (metadataStored i r md now st) =
    sent st ++ match receiver r with
               | Some rcv => [(rcv, OutMetadata md)]
               | None => []
               end.
Proof.
  intros Hi.
  assert (rooms (metadataStored i r md now st) =
          Map.update i (withMetadata md now) (rooms st)) as Hrooms
    by (unfold metadataStored; by destruct (receiver r)).
  rewrite Hrooms. split_and!.
  - done.
  - by rewrite (update_lookup i _ _ k r Hi).
  - intros j Hj. by apply update_lookup_ne.
  - unfold metadataStored. destruct (receiver r); simpl; by rewrite ?app_nil_r.
Qed.

Lemma handleMetadata_rejects_only_large ws message now st i r fileSize :
  findRoomByClient ws (rooms st) = Some (i, r) →
  Get message "size" ≫= parseInt = Some fileSize →
  handleMetadata ws message now st = Returned (send ws FileTooLarge st) ↔
  ∃ z, fileSize = Num z ∧ (sizeLimit < z)%Z.
Proof.
  intros Hroom Hsize. split.
  - destruct (greaterThan fileSize sizeLimit) eqn:Hgt.
    { intros _. destruct fileSize as [|z]; [done|]. exists z. split; [done|].
      by apply Z.ltb_lt. }
    unfold handleMetadata. rewrite Hroom, Hsize, Hgt.
    destruct (Get message "name" ≫= _) as [nm|]; [|done].
    destruct (Get message "type") as [ty|]; [|done].
    destruct (receiver r) as [rcv|]; intros Hst; apply (f_equal stateOf) in Hst;
      apply (f_equal sent) in Hst; simpl in Hst.
    + apply app_inv_head in Hst. unfold FileTooLarge in Hst. congruence.
    + apply (f_equal length) in Hst. rewrite length_app in Hst. simpl in Hst. lia.
  - intros (z & -> & Hz). apply handleMetadata_too_large with i r (Num z); [done..|].
    by apply Z.ltb_lt.
Qed.

(** C5, as the code has it. The limit enforced on a metadata message from a
    connection that occupies a room is exactly 200*1024*1024 = 209715200
    bytes, whatever the "500MB" of the error text says, and it is enforced on
    [z], the size the handler reads from the message with
    [parseInt(message.size)]: when [z] is above the limit the only effect is
    the FileTooLarge reply to the requesting connection, and the registry, so
    the room's metadata and lastActivity, is unchanged; when [z] is the limit
    or below, the check passes, and a message whose name is a string (or an
    array, the other value with a [slice] method) is accepted: the room holds
    the metadata with size [z] and the new lastActivity. For a size written
    as a decimal numeral, [z] is the integer written ([parseInt_numeral]). *)
Theorem metadata_size_limit st ws i r message z nm now t2 :
  findRoomByClient ws (rooms st) = Some (i, r) →
  Get message "size" ≫= parseInt = Some (Num z) →
  Get message "type" = Some (JStr "metadata") →
  let st' := onMessage ws (Some message) now t2 st in
  sizeLimit = 209715200%Z ∧
  FileTooLarge = OutError "File too large (max 500MB)" ∧
  ((200 * 1024 * 1024 < z)%Z →
     handleMetadata ws message now st = Returned st' ∧
     st' = send ws FileTooLarge st ∧
     rooms st' = rooms st ∧
     sent st' = sent st ++ [(ws, FileTooLarge)]) ∧
  ((z ≤ 200 * 1024 * 1024)%Z →
     Get message "name" ≫= (λ n, slice0 n 256) = Some nm →
     let md := Metadata nm (Num z) (JStr "metadata") in
     handleMetadata ws message now st = Returned st' ∧
     (∃ k, rooms st !! i = Some (k, r) ∧
           rooms st' !! i =
             Some (k, Room (sender r) (receiver r) (Some md) (createdAt r) now)) ∧
     (∀ j, j ≠ i → rooms st' !! j = rooms st !! j) ∧
     (ws, FileTooLarge) ∉ newMessages st st') ∧
  ((z ≤ 200 * 1024 * 1024)%Z →
     handleMetadata ws message now st ≠ Returned (send ws FileTooLarge st)).
Proof.
  intros Hroom Hsize Hty st'. split_and!; [done|done| | |].
  - intros Hz.
    assert (handleMetadata ws message now st = Returned (send ws FileTooLarge st)) as Hh.
    { apply handleMetadata_too_large with i r (Num z); [done|done|].
      simpl. apply Z.ltb_lt. unfold sizeLimit. lia. }
    assert (st' = send ws FileTooLarge st) as ->.
    { unfold st', onMessage. by rewrite dispatch_metadata, Hh. }
    by split_and!.
  - intros Hz Hname md.
    destruct (handleMetadata_accepted ws message now st i r (Num z) nm)
      as (ty & Hty' & Hh); [done|done| |done|].
    { simpl. apply Z.ltb_ge. unfold sizeLimit. lia. }
    rewrite Hty in Hty'. injection Hty' as <-.
    assert (st' = metadataStored i r md now st) as ->.
    { unfold st', onMessage. by rewrite dispatch_metadata, Hh. }
    destruct (findRoomByClient_lookup _ _ _ _ Hroom) as (k & Hi & _).
    destruct (metadataStored_rooms i r k md now st Hi) as (_ & Hat & Hother & Hsent).
    split_and!; [done|by exists k|done|].
    unfold newMessages. rewrite Hsent, drop_app_length.
    destruct (receiver r); [|apply not_elem_of_nil].
    rewrite list_elem_of_singleton. unfold FileTooLarge. congruence.
  - intros Hz Hrejected.
    apply (handleMetadata_rejects_only_large ws message now st i r (Num z)) in Hrejected
      as (z' & [= <-] & Hz'); [|done..].
    unfold sizeLimit in Hz'. lia.
Qed.

Lemma metadata_size_limit_witness :
  let st := run [Message 1 (Some (register (JStr "1234"))) 10 11] initial in
  let atLimit := JObj [("type", JStr "metadata"); ("name", JStr "a.bin");
                       ("size", JNum "209715200")] in
  let above := JObj [("type", JStr "metadata"); ("name", JStr "a.bin");
                     ("size", JNum "209715201")] in
  rooms (onMessage 1 (Some above) 20 20 st) = rooms st ∧
  rooms (onMessage 1 (Some atLimit) 20 20 st) !! 0 =
    Some (KPrim (JStr "1234"),
          Room 1 None (Some (Metadata (JStr "a.bin") (Num 209715200) (JStr "metadata")))
               10 20).
Proof.
  intros st atLimit above. split.
  - destruct (metadata_size_limit st 1 0 (Room 1 None None 10 11) above 209715201
                (JStr "a.bin") 20 20) as (_ & _ & H & _); [reflexivity..|].
    destruct H as (_ & _ & H & _); [lia|]. exact H.
  - destruct (metadata_size_limit st 1 0 (Room 1 None None 10 11) atLimit 209715200
                (JStr "a.bin") 20 20) as (_ & _ & _ & H & _); [reflexivity..|].
    destruct H as (_ & (k & Hk & H) & _); [lia|reflexivity|].
    injection Hk as <-. exact H.
Defined.

(** C5 as stated, on the declared size itself, fails: the size is compared
    after [parseInt] has read it from its text. Declared as the number 1e21,
    whose text is "1e+21", it reads as 1; declared as 209715200.5 it reads as
    209715200. Both are above the limit, both are accepted and stored, with
    the size that was read, and no FileTooLarge reply is sent. *)
Lemma size_limit_counterexample :
  let st := run [Message 1 (Some (register (JStr "1234"))) 10 11] initial in
  let huge := JObj [("type", JStr "metadata"); ("name", JStr "a.bin");
                    ("size", JNum "1e+21")] in
  let fraction := JObj [("type", JStr "metadata"); ("name", JStr "a.bin");
                        ("size", JNum "209715200.5")] in
  (rooms (onMessage 1 (Some huge) 20 20 st) =
     [(KPrim (JStr "1234"),
       Room 1 None (Some (Metadata (JStr "a.bin") (Num 1) (JStr "metadata"))) 10 20)] ∧
   sent (onMessage 1 (Some huge) 20 20 st) = sent st) ∧
  (rooms (onMessage 1 (Some fraction) 20 20 st) =
     [(KPrim (JStr "1234"),
       Room 1 None (Some (Metadata (JStr "a.bin") (Num 209715200) (JStr "metadata")))
            10 20)] ∧
   sent (onMessage 1 (Some fraction) 20 20 st) = sent st).
Proof. repeat split; reflexivity. Qed.

(** A size that is missing reads as [NaN]: [parseInt(undefined)] parses the
    text "undefined". *)
Lemma missing_size_is_NaN message :
  Get message "size" = Some JUndefined → Get message "size" ≫= parseInt = Some NaN.
Proof. by intros ->. Qed.

(** C9. A metadata message whose size is negative, or missing, is not stored
    when it has no name. Connection 1 has registered room "1234" and
    connection 2 has joined it; connection 1 sends the text
    [{"type":"metadata","size":-5}], then [{"type":"metadata"}]. The size
    reads as -5, then as [NaN], and passes the check: no FileTooLarge reply is
    sent. Then [message.name.slice] is called on [undefined] and throws, before
    the assignment of [room.metadata] and before the send to the receiver: the
    room keeps no metadata, connection 2 receives nothing, and the [catch]
    answers connection 1 with InvalidFormat. *)
Theorem metadata_negative_size_without_name_not_stored :
  let st := run [Message 1 (Some (register (JStr "1234"))) 10 11;
                 Message 2 (Some (join (JStr "1234"))) 12 12] initial in
  let negative := JObj [("type", JStr "metadata"); ("size", JNum "-5")] in
  let missing := JObj [("type", JStr "metadata")] in
  findRoomByClient 1 (rooms st) = Some (0, Room 1 (Some 2) None 10 12) ∧
  (Get negative "size" ≫= parseInt = Some (Num (-5)) ∧
   greaterThan (Num (-5)) sizeLimit = false ∧
   handleMetadata 1 negative 20 st = Thrown st ∧
   onMessage 1 (Some negative) 20 20 st = send 1 InvalidFormat st) ∧
  (Get missing "size" ≫= parseInt = Some NaN ∧
   greaterThan NaN sizeLimit = false ∧
   handleMetadata 1 missing 20 st = Thrown st ∧
   onMessage 1 (Some missing) 20 20 st = send 1 InvalidFormat st) ∧
  rooms (send 1 InvalidFormat st) =
    [(KPrim (JStr "1234"), Room 1 (Some 2) None 10 12)] ∧
  newMessages st (send 1 InvalidFormat st) = [(1, InvalidFormat)].
Proof. repeat split; reflexivity. Qed.

(** ** Closing a connection *)

Lemma roomCount_zero ws (m : Map.t) : roomCount ws m = 0 ↔ firstRoomOf ws m = None.
Proof.
  unfold roomCount. rewrite firstRoomOf_None.
  induction m as [|e m IH]; [by split|].
  rewrite filter_cons, Forall_cons. case_decide; simpl; [|tauto].
  split; [lia | by intros [? _]].
Qed.

Lemma roomCount_delete ws (m : Map.t) i k r :
  m !! i = Some (k, r) → occupies ws r = true →
  roomCount ws m = S (roomCount ws (delete i m)).
Proof.
  unfold roomCount. revert i. induction m as [|e m IH]; intros i Hi Hocc; [done|].
  destruct i as [|i]; simpl in *.
  - injection Hi as ->. rewrite filter_cons_True by done. done.
  - rewrite !filter_cons. case_decide; simpl; eauto using f_equal.
Qed.

(** After [delete(k)] the map has no key [k]. *)
Lemma delete_key_gone k (m : Map.t) :
  Map.wf m = true → k ∉ (Map.delete k m).*1.
Proof.
  unfold Map.wf. induction m as [|[k0 r0] m IH]; simpl; [intros _; apply not_elem_of_nil|].
  intros (Hok & Hne & Hwf)%distinct_cons.
  destruct (Map.sameKey k0 k) eqn:Hsame.
  - intros Hin. rewrite Forall_forall in Hne. specialize (Hne k Hin). congruence.
  - simpl. rewrite not_elem_of_cons. split; [|by apply IH].
    intros <-. by rewrite sameKey_refl in Hsame.
Qed.

Lemma otherClient_survivor ws r other :
  occupies ws r = true → occupies other r = true → other ≠ ws →
  otherClient ws r = Some other.
Proof.
  unfold occupies, otherClient. intros Hws Hother Hne.
  destruct (Nat.eqb_spec (sender r) ws) as [Hs|Hs].
  - destruct (Nat.eqb_spec (sender r) other) as [?|_]; [congruence|]. simpl in Hother.
    destruct (receiver r) as [x|]; [|done]. apply Nat.eqb_eq in Hother. by subst.
  - simpl in Hws. destruct (receiver r) as [x|]; [|done]. apply Nat.eqb_eq in Hws. subst x.
    destruct (Nat.eqb_spec (sender r) other) as [->|_]; [done|]. simpl in Hother.
    apply Nat.eqb_eq in Hother. by subst.
Qed.

Lemma cleanupRooms_found ws st i k r :
  Map.wf (rooms st) = true →
  firstRoomOf ws (rooms st) = Some (i, (k, r)) →
  rooms (cleanupRooms ws st) = delete i (rooms st) ∧
  sent (cleanupRooms ws st) =
    sent st ++ match otherClient ws r with
               | Some other => [(other, PeerDisconnected)]
               | None => []
               end.
Proof.
  intros Hwf Hfirst. unfold cleanupRooms. rewrite Hfirst.
  apply firstRoomOf_Some in Hfirst as (Hi & _ & _).
  destruct (otherClient ws r); simpl;
    rewrite (delete_key_at _ i k r Hwf Hi), ?app_nil_r; done.
Qed.

(** C7. When a connection closes in a reachable state: if it occupies a room,
    the first such room in the registry is removed and no other room is
    touched, and the other occupant of that room, when there is one, is sent
    exactly one message, the PeerDisconnected error; if it occupies no room,
    the state is as before: the registry has the same size and nothing is
    sent to anyone. *)
Theorem close_removes_one_room st ws :
  reachable st →
  match firstRoomOf ws (rooms st) with
  | Some (i, (k, r)) =>
      0 < roomCount ws (rooms st) ∧
      rooms (onClose ws st) = delete i (rooms st) ∧
      S (length (rooms (onClose ws st))) = length (rooms st) ∧
      (k ∉ (rooms (onClose ws st)).*1) ∧
      (∀ other, other ≠ ws → occupies other r = true →
         sent (onClose ws st) = sent st ++ [(other, PeerDisconnected)]) ∧
      (sender r = ws → receiver r = None → sent (onClose ws st) = sent st)
  | None =>
      roomCount ws (rooms st) = 0 ∧
      onClose ws st = st ∧
      length (rooms (onClose ws st)) = length (rooms st) ∧
      sent (onClose ws st) = sent st
  end.
Proof.
  intros Hreach. destruct (reachable_invariant st Hreach) as (Hwf & _ & _).
  destruct (firstRoomOf ws (rooms st)) as [[i [k r]]|] eqn:Hfirst.
  - destruct (cleanupRooms_found ws st i k r Hwf Hfirst) as [Hrooms Hsent].
    apply firstRoomOf_Some in Hfirst as (Hi & Hocc & _).
    unfold onClose. rewrite Hrooms. split_and!.
    + rewrite (roomCount_delete ws _ i k r Hi Hocc). lia.
    + done.
    + rewrite length_delete by eauto. apply lookup_lt_Some in Hi. lia.
    + rewrite <- (delete_key_at _ i k r Hwf Hi). by apply delete_key_gone.
    + intros other Hne Hother. by rewrite Hsent, (otherClient_survivor ws r other).
    + intros Hs Hr. rewrite Hsent. unfold otherClient.
      by rewrite Hs, Nat.eqb_refl, Hr, app_nil_r.
  - split_and!; [by apply roomCount_zero| | |];
      unfold onClose, cleanupRooms; by rewrite Hfirst.
Qed.

Lemma close_removes_one_room_witness :
  let st := run [Message 1 (Some (register (JStr "1234"))) 10 11;
                 Message 2 (Some (join (JStr "1234"))) 12 12;
                 Message 3 (Some (register (JStr "5678"))) 13 14] initial in
  rooms (onClose 1 st) = [(KPrim (JStr "5678"), Room 3 None None 13 14)] ∧
  sent (onClose 1 st) = sent st ++ [(2, PeerDisconnected)].
Proof.
  intros st.
  assert (reachable st) as Hreach by (do 3 apply reachable_step; apply reachable_initial).
  pose proof (close_removes_one_room st 1 Hreach) as H.
  change (firstRoomOf 1 (rooms st))
    with (Some (0, (KPrim (JStr "1234"), Room 1 (Some 2) None 10 12))) in H.
  destruct H as (_ & Hrooms & _ & _ & Hsent & _).
  split; [exact Hrooms | apply Hsent; [lia | reflexivity]].
Defined.

(** ** Completing a transfer *)

Lemma dispatch_complete ws message t1 t2 st :
  Get message "type" = Some (JStr "complete") →
  onMessage ws (Some message) t1 t2 st = handleTransferComplete ws message st.
Proof. intros Hty. unfold onMessage, handleMessage. by rewrite Hty. Qed.

(** The second scan of [getRoomCode] finds the code of the room that
    [findRoomByClient] resolved, so deleting by that code is deleting the
    resolved room. *)
Lemma complete_two_lookups ws message st :
  Map.wf (rooms st) = true →
  handleTransferComplete ws message st = completeResolved ws st.
Proof.
  intros Hwf. unfold handleTransferComplete, completeResolved.
  destruct (findRoomByClient ws (rooms st)) as [[i r]|] eqn:Hroom; [|done].
  destruct (receiver r) as [rcv|]; [|done]. simpl.
  apply findRoomByClient_Some in Hroom as [k Hfirst].
  rewrite (getRoomCode_Some ws _ i k r Hfirst).
  apply firstRoomOf_Some in Hfirst as (Hi & _ & _).
  by rewrite (delete_key_at _ i k r Hwf Hi).
Qed.

Lemma handleTransferComplete_paired ws message st i r rcv :
  Map.wf (rooms st) = true →
  findRoomByClient ws (rooms st) = Some (i, r) → receiver r = Some rcv →
  handleTransferComplete ws message st =
  withRooms (delete i (rooms st)) (send rcv OutComplete st).
Proof.
  intros Hwf Hroom Hrcv. rewrite complete_two_lookups by done.
  unfold completeResolved. by rewrite Hroom, Hrcv.
Qed.

(** C6, as the code has it. In a reachable state, when the room that
    [findRoomByClient] resolves for the requesting connection (the first room
    it occupies, in insertion order) is paired, [complete] sends a complete
    message to that room's receiver and removes that room and no other. The
    removed room's code is then no key of the registry; a former occupant
    that occupied only this room resolves to no room afterwards, and any room
    a connection still resolves to is a room that was there before, at another
    place than the removed one. The two-lookup deletion of the code gives the
    same state as removing the resolved room directly. *)
Theorem complete_removes_resolved_room st ws message i r rcv :
  reachable st →
  findRoomByClient ws (rooms st) = Some (i, r) →
  receiver r = Some rcv →
  let st' := handleTransferComplete ws message st in
  st' = completeResolved ws st ∧
  (Get message "type" = Some (JStr "complete") →
   ∀ t1 t2, onMessage ws (Some message) t1 t2 st = st') ∧
  sent st' = sent st ++ [(rcv, OutComplete)] ∧
  rooms st' = delete i (rooms st) ∧
  (∃ k, rooms st !! i = Some (k, r) ∧ k ∉ (rooms st').*1) ∧
  (∀ c, occupies c r = true → roomCount c (rooms st) ≤ 1 →
        findRoomByClient c (rooms st') = None) ∧
  (∀ c j r', findRoomByClient c (rooms st') = Some (j, r') →
        ∃ j' k', j' ≠ i ∧ rooms st !! j' = Some (k', r')).
Proof.
  intros Hreach Hroom Hrcv st'.
  destruct (reachable_invariant st Hreach) as (Hwf & _ & _).
  destruct (findRoomByClient_lookup _ _ _ _ Hroom) as (k & Hi & Hocc).
  assert (st' = withRooms (delete i (rooms st)) (send rcv OutComplete st)) as Hst'
    by by apply handleTransferComplete_paired with r.
  split_and!.
  - by apply complete_two_lookups.
  - intros Hty t1 t2. by apply dispatch_complete.
  - by rewrite Hst'.
  - by rewrite Hst'.
  - exists k. split; [done|]. rewrite Hst'. simpl.
    rewrite <- (delete_key_at _ i k r Hwf Hi). by apply delete_key_gone.
  - intros c Hc Hcount. rewrite Hst'. simpl.
    apply findRoomByClient_None, roomCount_zero.
    rewrite (roomCount_delete c _ i k r Hi Hc) in Hcount. lia.
  - intros c j r' (k' & Hfirst)%findRoomByClient_Some. rewrite Hst' in Hfirst. simpl in Hfirst.
    apply firstRoomOf_Some in Hfirst as (Hj & _ & _).
    destruct (decide (j < i)).
    + rewrite list_lookup_delete_lt in Hj by done. exists j, k'. split; [lia|done].
    + rewrite list_lookup_delete_ge in Hj by lia. exists (S j), k'. split; [lia|done].
Qed.

Lemma complete_removes_resolved_room_witness :
  let st := run [Message 1 (Some (register (JStr "1234"))) 10 11;
                 Message 2 (Some (join (JStr "1234"))) 12 12] initial in
  let st' := handleTransferComplete 1 complete st in
  sent st' = sent st ++ [(2, OutComplete)] ∧ rooms st' = [] ∧
  findRoomByClient 1 (rooms st') = None ∧ findRoomByClient 2 (rooms st') = None.
Proof.
  intros st st'.
  assert (reachable st) as Hreach by (do 2 apply reachable_step; apply reachable_initial).
  destruct (complete_removes_resolved_room st 1 complete 0 (Room 1 (Some 2) None 10 12) 2
              Hreach) as (_ & _ & Hsent & Hrooms & _ & Hnone & _);
    [reflexivity|reflexivity|].
  split_and!; [exact Hsent | exact Hrooms | |]; apply Hnone;
    solve [reflexivity | vm_compute; lia].
Defined.

(** C6 as stated fails where a connection occupies more than one room.
    Connection 1 registers "1111" and "2222" and connection 2 joins "1111":
    after [complete] from 1 the paired room "1111" is gone, yet 1, a former
    occupant, still resolves to a room, "2222". And when connection 2
    registers "1111", connection 1 registers "2222" and 2 joins "2222", a
    [complete] from 2, an occupant of the paired room "2222", resolves to
    the unpaired "1111" first and does nothing at all. *)
Lemma complete_counterexample :
  let st := run [Message 1 (Some (register (JStr "1111"))) 10 11;
                 Message 1 (Some (register (JStr "2222"))) 12 13;
                 Message 2 (Some (join (JStr "1111"))) 14 14] initial in
  let st2 := run [Message 2 (Some (register (JStr "1111"))) 10 11;
                  Message 1 (Some (register (JStr "2222"))) 12 13;
                  Message 2 (Some (join (JStr "2222"))) 14 14] initial in
  (rooms st = [(KPrim (JStr "1111"), Room 1 (Some 2) None 10 14);
               (KPrim (JStr "2222"), Room 1 None None 12 13)] ∧
   findRoomByClient 1 (rooms (onMessage 1 (Some complete) 20 20 st)) =
     Some (0, Room 1 None None 12 13)) ∧
  (rooms st2 = [(KPrim (JStr "1111"), Room 2 None None 10 11);
                (KPrim (JStr "2222"), Room 1 (Some 2) None 12 14)] ∧
   onMessage 2 (Some complete) 20 20 st2 = st2).
Proof. vm_compute. auto. Qed.

(** ** Messages from the receiver *)

Lemma dispatch_chunk ws message t1 t2 st :
  Get message "type" = Some (JStr "chunk") →
  handleMessage ws message t1 t2 st = forwardChunk ws message t1 st.
Proof. intros Hty. unfold handleMessage. by rewrite Hty. Qed.

(** The three relay handlers use the requesting connection only to resolve
    its room (and, in [handleMetadata], to address the FileTooLarge reply). *)
Lemma relay_by_resolved_room ws1 ws2 message now st :
  firstRoomOf ws1 (rooms st) = firstRoomOf ws2 (rooms st) →
  forwardChunk ws1 message now st = forwardChunk ws2 message now st ∧
  handleTransferComplete ws1 message st = handleTransferComplete ws2 message st ∧
  (handleMetadata ws1 message now st ≠ Returned (send ws1 FileTooLarge st) →
   handleMetadata ws1 message now st = handleMetadata ws2 message now st).
Proof.
  intros Hsame.
  assert (findRoomByClient ws1 (rooms st) = findRoomByClient ws2 (rooms st)) as Hfind
    by (unfold findRoomByClient; by rewrite Hsame).
  assert (getRoomCode ws1 (rooms st) = getRoomCode ws2 (rooms st)) as Hcode
    by (unfold getRoomCode; by rewrite Hsame).
  unfold forwardChunk, handleTransferComplete, handleMetadata. simpl.
  rewrite Hfind, Hcode. split_and!; [done|done|].
  destruct (findRoomByClient ws2 (rooms st)) as [[i r]|]; [|done].
  destruct (Get message "size" ≫= parseInt) as [fileSize|]; [|done].
  by destruct (greaterThan fileSize sizeLimit).
Qed.

(** C10, as the code has it. The relay handlers act on the room that
    [findRoomByClient] resolves for the sending connection, the first room it
    occupies, whatever its role there. In a reachable state, let [ws] resolve
    to a room of which it is the receiver. A chunk message from [ws] is
    relayed to [ws] itself; an accepted
    metadata message from [ws] replaces the room's stored metadata and is
    forwarded to [ws] itself; a complete message from [ws] sends complete to
    [ws] and removes the room. This is what the same messages from the sender
    do when the sender resolves to that room: the handlers resolve the room
    by either occupant and then address its receiver. *)
Theorem receiver_messages_relayed st ws i r message now :
  reachable st →
  findRoomByClient ws (rooms st) = Some (i, r) →
  receiver r = Some ws →
  (∀ chunk, Get message "chunk" = Some chunk →
     ∃ st', forwardChunk ws message now st = Returned st' ∧
       sent st' = sent st ++ [(ws, OutChunk chunk)] ∧
       rooms st' = Map.update i (touched now) (rooms st)) ∧
  (∀ fileSize nm,
     Get message "size" ≫= parseInt = Some fileSize →
     greaterThan fileSize sizeLimit = false →
     Get message "name" ≫= (λ n, slice0 n 256) = Some nm →
     ∃ ty st' k, Get message "type" = Some ty ∧
       handleMetadata ws message now st = Returned st' ∧
       rooms st !! i = Some (k, r) ∧
       rooms st' !! i =
         Some (k, Room (sender r) (Some ws) (Some (Metadata nm fileSize ty))
                       (createdAt r) now) ∧
       sent st' = sent st ++ [(ws, OutMetadata (Metadata nm fileSize ty))]) ∧
  (sent (handleTransferComplete ws message st) = sent st ++ [(ws, OutComplete)] ∧
   rooms (handleTransferComplete ws message st) = delete i (rooms st)) ∧
  (findRoomByClient (sender r) (rooms st) = Some (i, r) →
     forwardChunk (sender r) message now st = forwardChunk ws message now st ∧
     handleTransferComplete (sender r) message st = handleTransferComplete ws message st ∧
     (handleMetadata (sender r) message now st
        ≠ Returned (send (sender r) FileTooLarge st) →
      handleMetadata (sender r) message now st = handleMetadata ws message now st)).
Proof.
  intros Hreach Hroom Hrcv.
  destruct (reachable_invariant st Hreach) as (Hwf & _ & _).
  destruct (findRoomByClient_lookup _ _ _ _ Hroom) as (k & Hi & Hocc).
  split_and!.
  - intros chunk Hchunk. unfold forwardChunk. rewrite Hroom, Hrcv, Hchunk. simpl. eauto.
  - intros fileSize nm Hsize Hgt Hname.
    destruct (handleMetadata_accepted ws message now st i r fileSize nm)
      as (ty & Hty & Hh); [done..|].
    destruct (metadataStored_rooms i r k (Metadata nm fileSize ty) now st Hi)
      as (_ & Hat & _ & Hsent).
    rewrite Hrcv in Hat, Hsent.
    by exists ty, (metadataStored i r (Metadata nm fileSize ty) now st), k.
  - by rewrite (handleTransferComplete_paired ws message st i r ws).
  - by rewrite (handleTransferComplete_paired ws message st i r ws).
  - intros Hsender. apply relay_by_resolved_room.
    apply findRoomByClient_Some in Hsender as [k1 H1].
    apply findRoomByClient_Some in Hroom as [k2 H2]. rewrite H1, H2.
    apply firstRoomOf_Some in H1 as (H1 & _). apply firstRoomOf_Some in H2 as (H2 & _).
    congruence.
Qed.

Lemma receiver_messages_relayed_witness :
  let st := run [Message 1 (Some (register (JStr "1234"))) 10 11;
                 Message 2 (Some (join (JStr "1234"))) 12 12] initial in
  let message := JObj [("type", JStr "chunk"); ("chunk", JStr "deadbeef")] in
  (∃ st', forwardChunk 2 message 20 st = Returned st' ∧
          sent st' = sent st ++ [(2, OutChunk (JStr "deadbeef"))]) ∧
  sent (handleTransferComplete 2 message st) = sent st ++ [(2, OutComplete)] ∧
  rooms (handleTransferComplete 2 message st) = [] ∧
  forwardChunk 1 message 20 st = forwardChunk 2 message 20 st.
Proof.
  intros st message.
  assert (reachable st) as Hreach by (do 2 apply reachable_step; apply reachable_initial).
  destruct (receiver_messages_relayed st 2 0 (Room 1 (Some 2) None 10 12) message 20 Hreach)
    as (Hchunk & _ & [Hsent Hrooms] & Hsame); [reflexivity|reflexivity|].
  destruct (Hchunk (JStr "deadbeef") eq_refl) as (st' & Hst' & Hsent' & _).
  destruct Hsame as (Hfwd & _); [reflexivity|].
  split_and!; [by exists st' | exact Hsent | exact Hrooms | exact Hfwd].
Defined.

(** C10 as stated, for the receiver of any paired room, fails where the
    receiver also occupies an earlier room. Connection 2 registers "1111",
    connection 1 registers "2222" and 2 joins "2222": 2 is the receiver of the
    paired room "2222", yet its messages resolve to "1111", which has no
    receiver. Its chunk and its complete are dropped, and its metadata is
    stored in "1111" and forwarded to nobody. *)
Lemma receiver_counterexample :
  let st := run [Message 2 (Some (register (JStr "1111"))) 10 11;
                 Message 1 (Some (register (JStr "2222"))) 12 13;
                 Message 2 (Some (join (JStr "2222"))) 14 14] initial in
  let chunk := JObj [("type", JStr "chunk"); ("chunk", JStr "deadbeef")] in
  let md := JObj [("type", JStr "metadata"); ("name", JStr "a.bin");
                  ("size", JNum "10")] in
  rooms st = [(KPrim (JStr "1111"), Room 2 None None 10 11);
              (KPrim (JStr "2222"), Room 1 (Some 2) None 12 14)] ∧
  onMessage 2 (Some chunk) 20 20 st = st ∧
  onMessage 2 (Some complete) 20 20 st = st ∧
  rooms (onMessage 2 (Some md) 20 20 st) =
    [(KPrim (JStr "1111"),
      Room 2 None (Some (Metadata (JStr "a.bin") (Num 10) (JStr "metadata"))) 10 20);
     (KPrim (JStr "2222"), Room 1 (Some 2) None 12 14)] ∧
  sent (onMessage 2 (Some md) 20 20 st) = sent st.
Proof. repeat split; reflexivity. Qed.

(** ** One role per connection *)

Lemma run_reachable es st : reachable st → reachable (run es st).
Proof.
  revert st. induction es as [|e es IH]; intros st Hst; [done|].
  simpl. apply IH. by constructor.
Qed.

Lemma rolesIn_occupies ws r : occupies ws r = true ↔ 0 < rolesIn ws r.
Proof.
  unfold occupies, rolesIn.
  destruct (Nat.eqb (sender r) ws); simpl; [split; [lia|done]|].
  destruct (receiver r) as [x|]; [|split; [done|lia]].
  destruct (Nat.eqb x ws); split; done || lia.
Qed.

Lemma roomCount_le_roleCount ws (m : Map.t) : roomCount ws m ≤ roleCount ws m.
Proof.
  unfold roomCount, roleCount. induction m as [|e m IH]; simpl; [done|].
  rewrite filter_cons. case_decide as Hocc; simpl; [|lia].
  apply rolesIn_occupies in Hocc. lia.
Qed.

Lemma roleCount_app ws (m m' : Map.t) :
  roleCount ws (m ++ m') = roleCount ws m + roleCount ws m'.
Proof. apply sum_list_with_app. Qed.

Lemma roleCount_unoccupied ws (m : Map.t) :
  findRoomByClient ws m = None → roleCount ws m = 0.
Proof.
  intros Hnone%findRoomByClient_None%firstRoomOf_None. unfold roleCount.
  induction Hnone as [|e m He _ IH]; simpl; [done|]. rewrite IH.
  rewrite rolesIn_occupies in He. lia.
Qed.

Lemma roleCount_update ws i f (m : Map.t) :
  (∀ r, rolesIn ws (f r) = rolesIn ws r) →
  roleCount ws (Map.update i f m) = roleCount ws m.
Proof.
  intros Hf. unfold roleCount, Map.update. revert i.
  induction m as [|[k r] m IH]; intros [|i]; simpl; rewrite ?Hf; auto.
  f_equal. apply IH.
Qed.

Lemma roleCount_joined ws ws' now i k r (m : Map.t) :
  m !! i = Some (k, r) → receiver r = None →
  roleCount ws (Map.update i (joined ws' now) m) =
  roleCount ws m + (if Nat.eqb ws' ws then 1 else 0).
Proof.
  unfold roleCount, Map.update. revert i.
  induction m as [|[k0 r0] m IH]; intros [|i] Hi Hrcv; simpl in *; try done.
  - injection Hi as -> ->. unfold rolesIn. simpl. rewrite Hrcv. lia.
  - specialize (IH i Hi Hrcv). unfold alter in IH. rewrite IH. lia.
Qed.

Lemma roleCount_delete ws k (m : Map.t) :
  roleCount ws (Map.delete k m) ≤ roleCount ws m.
Proof.
  unfold roleCount. induction m as [|[k0 r0] m IH]; simpl; [done|].
  destruct (Map.sameKey k0 k); simpl; lia.
Qed.

(** What each handler does to the number of roles of a connection [c]. *)
Lemma createRoom_roles c ws code t1 t2 st :
  roleCount c (rooms (stateOf (createRoom ws code t1 t2 st))) ≤
  roleCount c (rooms st) + (if Nat.eqb ws c then 1 else 0).
Proof.
  unfold createRoom. destruct (ToString code) as [text|]; simpl; [|lia].
  destruct (test_code text); simpl; [|lia].
  destruct (Map.has code (rooms st)); simpl; [lia|].
  unfold Map.set_new. rewrite roleCount_app. unfold roleCount at 2, rolesIn. simpl. lia.
Qed.

Lemma joinRoom_roles c ws code now st :
  roleCount c (rooms (stateOf (joinRoom ws code now st))) ≤
  roleCount c (rooms st) + (if Nat.eqb ws c then 1 else 0).
Proof.
  unfold joinRoom. destruct (ToString code) as [text|]; simpl; [|lia].
  destruct (test_code text); simpl; [|lia].
  destruct (Map.get code (rooms st)) as [[i r]|] eqn:Hget; simpl; [|lia].
  destruct (receiver r) eqn:Hrcv; simpl; [lia|].
  apply get_Some in Hget as (k & Hi & _).
  rewrite (roleCount_joined c ws now i k r _ Hi Hrcv). lia.
Qed.

Lemma handleMetadata_roles c ws message now st :
  roleCount c (rooms (stateOf (handleMetadata ws message now st))) = roleCount c (rooms st).
Proof.
  unfold handleMetadata.
  destruct (findRoomByClient ws (rooms st)) as [[i r]|]; [|done].
  destruct (Get message "size" ≫= parseInt) as [fileSize|]; [|done].
  destruct (greaterThan fileSize sizeLimit); [done|].
  destruct (Get message "name" ≫= _) as [nm|]; [|done].
  destruct (Get message "type") as [ty|]; [|done].
  destruct (receiver r); simpl; by apply roleCount_update.
Qed.

Lemma forwardChunk_roles c ws message now st :
  roleCount c (rooms (stateOf (forwardChunk ws message now st))) = roleCount c (rooms st).
Proof.
  unfold forwardChunk.
  destruct (findRoomByClient ws (rooms st)) as [[i r]|]; [|done].
  destruct (receiver r); [|done].
  destruct (Get message "chunk"); simpl; by apply roleCount_update.
Qed.

Lemma handleTransferComplete_roles c ws message st :
  roleCount c (rooms (handleTransferComplete ws message st)) ≤ roleCount c (rooms st).
Proof.
  unfold handleTransferComplete.
  destruct (findRoomByClient ws (rooms st)) as [[i r]|]; [|done].
  destruct (receiver r); [|done]. simpl. apply roleCount_delete.
Qed.

Lemma cleanupRooms_roles c ws st :
  roleCount c (rooms (cleanupRooms ws st)) ≤ roleCount c (rooms st).
Proof.
  unfold cleanupRooms.
  destruct (firstRoomOf ws (rooms st)) as [[i [code r]]|]; [|done].
  destruct (otherClient ws r); simpl; apply roleCount_delete.
Qed.

Lemma handleMessage_roles c ws message t1 t2 st :
  roleCount c (rooms (stateOf (handleMessage ws message t1 t2 st))) ≤
  roleCount c (rooms st) +
  (if requestsRole message && Nat.eqb ws c then 1 else 0).
Proof.
  unfold handleMessage, requestsRole.
  destruct (Get message "type") as [ty|]; simpl; [|lia].
  destruct (strictEqualsString ty "register") eqn:Hreg; simpl.
  { destruct (Get message "code") as [code|]; simpl; [|lia]. apply createRoom_roles. }
  destruct (strictEqualsString ty "join") eqn:Hjoin; simpl.
  { destruct (Get message "code") as [code|]; simpl; [|lia]. apply joinRoom_roles. }
  destruct (strictEqualsString ty "metadata"); [rewrite handleMetadata_roles; lia|].
  destruct (strictEqualsString ty "chunk"); [rewrite forwardChunk_roles; lia|].
  destruct (strictEqualsString ty "complete"); simpl; [|lia].
  pose proof (handleTransferComplete_roles c ws message st). lia.
Qed.

Lemma step_roles c e st :
  obeys e st → roleCount c (rooms st) ≤ 1 → roleCount c (rooms (step e st)) ≤ 1.
Proof.
  intros Hobeys Hc. destruct e as [ws [message|] t1 t2|ws]; unfold step.
  - assert (roleCount c (rooms (onMessage ws (Some message) t1 t2 st)) =
            roleCount c (rooms (stateOf (handleMessage ws message t1 t2 st)))) as ->
      by (unfold onMessage; by destruct (handleMessage ws message t1 t2 st)).
    pose proof (handleMessage_roles c ws message t1 t2 st) as Hbound.
    destruct (requestsRole message) eqn:Hreq; simpl in *; [|lia].
    destruct (Nat.eqb_spec ws c) as [->|_]; [|lia].
    rewrite (roleCount_unoccupied c (rooms st)) in Hbound by auto. lia.
  - done.
  - pose proof (cleanupRooms_roles c ws st). unfold onClose. lia.
Qed.

(** C1, as the code has it. The server never checks whether the connection
    that registers or joins already occupies a room, so the invariant rests on
    the callers: along every run in which [register] and [join] are only sent
    by connections that occupy no room, each connection has at most one role,
    in at most one live room. *)
Theorem one_role_under_discipline st ws :
  disciplined st →
  roleCount ws (rooms st) ≤ 1 ∧ roomCount ws (rooms st) ≤ 1.
Proof.
  intros Hst.
  assert (roleCount ws (rooms st) ≤ 1) as Hroles.
  { induction Hst as [|e st _ IH Hobeys]; [simpl; lia|]. by apply step_roles. }
  split; [done|]. pose proof (roomCount_le_roleCount ws (rooms st)). lia.
Qed.

Lemma one_role_under_discipline_witness :
  let st := step (Message 2 (Some (join (JStr "1234"))) 12 12)
              (step (Message 1 (Some (register (JStr "1234"))) 10 11) initial) in
  disciplined st ∧ roomCount 1 (rooms st) ≤ 1 ∧ roomCount 2 (rooms st) ≤ 1.
Proof.
  intros st.
  assert (disciplined st) as Hst.
  { apply disciplined_step; [apply disciplined_step; [apply disciplined_initial|]|];
      intros _; reflexivity. }
  split; [exact Hst|].
  split; [apply (one_role_under_discipline st 1 Hst) | apply (one_role_under_discipline st 2 Hst)].
Defined.

(** C1 as stated fails: the handlers have no guard on the requesting
    connection. Connection 1 registers "1111" and then "2222" and occupies two
    live rooms; connection 1 registers "1111", connection 2 registers "2222"
    and connection 1 joins "2222", and again 1 occupies two rooms, as the
    sender of one and the receiver of the other. Both states are reachable. *)
Lemma one_room_per_connection_counterexample :
  let st := run [Message 1 (Some (register (JStr "1111"))) 10 11;
                 Message 1 (Some (register (JStr "2222"))) 12 13] initial in
  let st2 := run [Message 1 (Some (register (JStr "1111"))) 10 11;
                  Message 2 (Some (register (JStr "2222"))) 12 13;
                  Message 1 (Some (join (JStr "2222"))) 14 14] initial in
  (reachable st ∧
   rooms st = [(KPrim (JStr "1111"), Room 1 None None 10 11);
               (KPrim (JStr "2222"), Room 1 None None 12 13)] ∧
   roomCount 1 (rooms st) = 2) ∧
  (reachable st2 ∧
   rooms st2 = [(KPrim (JStr "1111"), Room 1 None None 10 11);
                (KPrim (JStr "2222"), Room 2 (Some 1) None 12 14)] ∧
   roomCount 1 (rooms st2) = 2).
Proof.
  intros st st2.
  split; (split; [apply run_reachable, reachable_initial | split; reflexivity]).
Qed.

(** ** The InvalidFormat reply *)

Lemma newMessages_send1 st c o : newMessages st (send c o st) = [(c, o)].
Proof. unfold newMessages, send. simpl. by rewrite drop_app_length. Qed.

(** A handler that returns has sent no InvalidFormat message, and a handler
    that throws has sent nothing at all. *)
Lemma handleMessage_messages ws message t1 t2 st :
  match handleMessage ws message t1 t2 st with
  | Returned st' => ∀ c, (c, InvalidFormat) ∉ newMessages st st'
  | Thrown st' => sent st' = sent st
  end.
Proof.
  unfold handleMessage, createRoom, joinRoom, handleMetadata, forwardChunk,
    handleTransferComplete.
  repeat case_match; simplify_eq;
    first
      [ done
      | intros who; unfold newMessages, send, withRooms; simpl;
        rewrite <- ?app_assoc, ?drop_app_length, ?drop_all; simpl;
        rewrite ?not_elem_of_cons;
        unfold InvalidFormat, InvalidCode, DuplicateCode, RoomNotFound, RoomFull,
          FileTooLarge, UnknownType;
        repeat split; try apply not_elem_of_nil; congruence ].
Qed.

(** X20. The InvalidFormat reply goes to the connection whose message could
    not be parsed or whose handler threw, and is sent in no other case. *)
Lemma InvalidFormat_iff ws parsed t1 t2 st c :
  (c, InvalidFormat) ∈ newMessages st (onMessage ws parsed t1 t2 st) ↔
  c = ws ∧
  (parsed = None ∨
   ∃ data st', parsed = Some data ∧ handleMessage ws data t1 t2 st = Thrown st').
Proof.
  unfold onMessage. destruct parsed as [data|].
  - pose proof (handleMessage_messages ws data t1 t2 st) as Hmsgs.
    destruct (handleMessage ws data t1 t2 st) as [st'|st'] eqn:Hh.
    + split; [by intros ?%Hmsgs|].
      intros (_ & [?|(d & s' & [= <-] & ?)]); [done|congruence].
    + unfold newMessages, send. simpl. rewrite Hmsgs, drop_app_length.
      rewrite list_elem_of_singleton. split; [intros [= ->]; eauto 6|by intros [-> _]].
  - rewrite newMessages_send1, list_elem_of_singleton.
    split; [intros [= ->]; eauto|by intros [-> _]].
Qed.

(** X21. When a handler throws: on a message that is [null]; on a [register] or
    [join] whose code cannot be converted to a string; and on a [metadata]
    message from a connection that occupies a room, when the size cannot be
    converted to a string or when the size passes the check and the name has
    no [slice] method. Nothing has been changed by then. *)
Lemma handleMessage_Thrown ws message t1 t2 st st' :
  handleMessage ws message t1 t2 st = Thrown st' ↔
  st' = st ∧
  (Get message "type" = None ∨
   (∃ ty code, Get message "type" = Some ty ∧
      (strictEqualsString ty "register" || strictEqualsString ty "join") = true ∧
      Get message "code" = Some code ∧ ToString code = None) ∨
   (Get message "type" = Some (JStr "metadata") ∧
    is_Some (findRoomByClient ws (rooms st)) ∧
    (Get message "size" ≫= parseInt = None ∨
     ∃ fileSize, Get message "size" ≫= parseInt = Some fileSize ∧
       greaterThan fileSize sizeLimit = false ∧
       Get message "name" ≫= (λ n, slice0 n 256) = None))).
Proof.
  unfold handleMessage.
  destruct (Get message "type") as [ty|] eqn:Hty.
  2:{ split; [intros [= <-]; auto | by intros [-> _]]. }
  assert (∀ k, ∃ v, Get message k = Some v) as Hget
    by (intros k; destruct message; simpl in *; eauto; done).
  destruct (Hget "code") as [code Hcode]. destruct (Hget "chunk") as [chunk Hchunk].
  rewrite Hcode.
  destruct (strictEqualsString ty "register") eqn:Hreg.
  { unfold createRoom. split.
    - destruct (ToString code) eqn:Htext; [by repeat case_match|].
      intros [= <-]. split; [done|]. right; left. exists ty, code. by rewrite Hreg.
    - intros (-> & [?|[(ty' & code' & [= <-] & _ & [= <-] & ->)|([= ->] & _)]]); done. }
  destruct (strictEqualsString ty "join") eqn:Hjoin.
  { unfold joinRoom. split.
    - destruct (ToString code) eqn:Htext; [by repeat case_match|].
      intros [= <-]. split; [done|]. right; left. exists ty, code. by rewrite Hreg, Hjoin.
    - intros (-> & [?|[(ty' & code' & [= <-] & _ & [= <-] & ->)|([= ->] & _)]]); done. }
  destruct (strictEqualsString ty "metadata") eqn:Hmeta.
  { assert (ty = JStr "metadata") as ->.
    { destruct ty; simpl in Hmeta; try done. by apply String.eqb_eq in Hmeta as ->. }
    unfold handleMetadata. destruct (Hget "type") as [ty' Hty']. rewrite Hty'.
    destruct (findRoomByClient ws (rooms st)) as [[i r]|] eqn:Hroom.
    2:{ split; [done|]. intros (_ & [?|[(? & ? & [= <-] & ? & _)|(_ & [? ?] & _)]]); done. }
    destruct (Get message "size" ≫= parseInt) as [fileSize|] eqn:Hsize.
    2:{ split; [intros [= <-]|intros [-> _]]; [|done]. split; [done|]. do 2 right. eauto. }
    destruct (greaterThan fileSize sizeLimit) eqn:Hgt.
    { split; [done|].
      intros (_ & [?|[(? & ? & [= <-] & ? & _)|(_ & _ & [?|(? & [= <-] & ? & _)])]]);
        done || congruence. }
    destruct (Get message "name" ≫= _) as [nm|] eqn:Hname.
    { split; [by destruct (receiver r)|].
      intros (_ & [?|[(? & ? & [= <-] & ? & _)|(_ & _ & [?|(? & [= <-] & _ & ?)])]]);
        done. }
    split; [intros [= <-]|intros [-> _]]; [|done]. split; [done|]. do 2 right.
    split_and!; [done|done|]. right. by exists fileSize. }
  assert (¬ (st' = st ∧ (Some ty = None ∨
      (∃ ty0 code0, Some ty = Some ty0 ∧
         strictEqualsString ty0 "register" || strictEqualsString ty0 "join" = true ∧
         Some code = Some code0 ∧ ToString code0 = None)
      ∨ (Some ty = Some (JStr "metadata") ∧
         is_Some (findRoomByClient ws (rooms st)) ∧
         (Get message "size" ≫= parseInt = None ∨
          ∃ fileSize, Get message "size" ≫= parseInt = Some fileSize ∧
            greaterThan fileSize sizeLimit = false ∧
            Get message "name" ≫= (λ n, slice0 n 256) = None))))) as Hno.
  { intros (_ & [?|[(ty0 & code0 & [= <-] & Hor & _)|([= ->] & _)]]);
      [done| by rewrite Hreg, Hjoin in Hor | by vm_compute in Hmeta]. }
  destruct (strictEqualsString ty "chunk").
  { unfold forwardChunk. rewrite Hchunk. split; [by repeat case_match|done]. }
  split; [by repeat case_match|done].
Qed.

(** C8. The claim that only unparseable text is answered with InvalidFormat
    does not hold of the code. Connection 1 has registered room "1234" and
    sends the text [{"type":"metadata","size":10}], which parses into an
    object: the size passes the check, [message.name] is [undefined], the call
    of [slice] on it throws inside the [try] that also covers the parse, and
    the [catch] answers with InvalidFormat. Nothing is stored. *)
Theorem metadata_without_name_gets_InvalidFormat :
  let st := run [Message 1 (Some (register (JStr "1234"))) 10 11] initial in
  let message := JObj [("type", JStr "metadata"); ("size", JNum "10")] in
  handleMessage 1 message 20 20 st = Thrown st ∧
  onMessage 1 (Some message) 20 20 st = send 1 InvalidFormat st ∧
  newMessages st (onMessage 1 (Some message) 20 20 st) = [(1, InvalidFormat)] ∧
  rooms (onMessage 1 (Some message) 20 20 st) = rooms st.
Proof. repeat split; reflexivity. Qed.

(** The text [null] parses too, and reading [message.type] of it throws. *)
Example null_message_gets_InvalidFormat ws t1 t2 st :
  onMessage ws (Some JNull) t1 t2 st = send ws InvalidFormat st.
Proof. reflexivity. Qed.

(** Text that does not parse is answered with InvalidFormat. *)
Lemma unparseable_gets_InvalidFormat ws t1 t2 st :
  onMessage ws None t1 t2 st = send ws InvalidFormat st.
Proof. reflexivity. Qed.

(** * Further properties of the handlers *)

(** ** Lookups after an insertion *)

Lemma has_false_get code (m : Map.t) : Map.has code m = false ↔ Map.get code m = None.
Proof. unfold Map.has. destruct (Map.get code m); split; done. Qed.

Lemma get_None code (m : Map.t) :
  Map.get code m = None ↔ Forall (λ e, Map.matches code e.1 ≠ true) m.
Proof.
  unfold Map.get.
  destruct (list_find _ m) as [[j [k r]]|] eqn:Hfind.
  - split; [done|]. intros Hall.
    apply (list_find_None (λ e : key * room, Map.matches code e.1 = true)) in Hall.
    congruence.
  - split; [|done]. intros _.
    by apply (list_find_None (λ e : key * room, Map.matches code e.1 = true)).
Qed.

(** An array or object of the message in hand is found under no key. *)
Lemma get_object code (m : Map.t) : isObject code = true → Map.get code m = None.
Proof.
  intros Hobj. apply get_None, Forall_forall. intros [[v|j v] r] _; simpl; [|done].
  destruct code; try done; by destruct v.
Qed.

Lemma get_snoc code (m : Map.t) r :
  isObject code = false → Map.get code m = None →
  Map.get code (m ++ [(KPrim code, r)]) = Some (length m, r).
Proof.
  intros Hprim Hnone%get_None. unfold Map.get.
  assert (list_find (λ e : key * room, Map.matches code e.1 = true)
            (m ++ [(KPrim code, r)]) = Some (length m, (KPrim code, r))) as ->; [|done].
  apply list_find_Some. split_and!.
  - by rewrite lookup_app_r, Nat.sub_diag.
  - simpl. by apply sameValueZero_refl.
  - intros j e Hj Hlt. rewrite lookup_app_l in Hj by done.
    rewrite Forall_forall in Hnone. apply Hnone. by apply list_elem_of_lookup_2 with j.
Qed.

Lemma firstRoomOf_snoc ws (m : Map.t) k r :
  firstRoomOf ws m = None → occupies ws r = true →
  firstRoomOf ws (m ++ [(k, r)]) = Some (length m, (k, r)).
Proof.
  intros Hnone%firstRoomOf_None Hocc. apply firstRoomOf_Some. split_and!.
  - by rewrite lookup_app_r, Nat.sub_diag.
  - done.
  - intros j e Hj Hlt. rewrite lookup_app_l in Hj by done.
    rewrite Forall_forall in Hnone. apply Hnone. by apply list_elem_of_lookup_2 with j.
Qed.

Lemma update_snoc f (m : Map.t) k r :
  Map.update (length m) f (m ++ [(k, r)]) = m ++ [(k, f r)].
Proof.
  unfold Map.update. induction m as [|e m IH]; simpl; [done|]. f_equal. apply IH.
Qed.

Lemma createRoom_fresh ws code text t1 t2 st :
  ToString code = Some text → test_code text = true →
  Map.has code (rooms st) = false →
  createRoom ws code t1 t2 st =
  Returned (send ws (OutRegistered code)
              (Server (rooms st ++ [(Map.newKey (nextRef st) code, Room ws None None t1 t2)])
                      (if isObject code then S (nextRef st) else nextRef st)
                      (sent st))).
Proof. intros Htext Htest Hhas. unfold createRoom. by rewrite Htext, Htest, Hhas. Qed.

(** ** Registering *)

(** X1. [register] with a code that passes the pattern and is not taken (the
    code a string or a number) adds one room at the end of the registry, with
    the requesting connection as sender, no receiver, no metadata and the two
    clock readings; the rooms already there are untouched; [rooms.get] of the
    code then finds the new room; the only message is the registered reply,
    with the code, to the requester. *)
Theorem register_creates_room ws code text t1 t2 st :
  ToString code = Some text → test_code text = true →
  isObject code = false →
  Map.has code (rooms st) = false →
  let st' := onMessage ws (Some (register code)) t1 t2 st in
  createRoom ws code t1 t2 st = Returned st' ∧
  rooms st' = rooms st ++ [(KPrim code, Room ws None None t1 t2)] ∧
  Map.get code (rooms st') = Some (length (rooms st), Room ws None None t1 t2) ∧
  findRoomByClient ws (rooms st') =
    match findRoomByClient ws (rooms st) with
    | Some found => Some found
    | None => Some (length (rooms st), Room ws None None t1 t2)
    end ∧
  sent st' = sent st ++ [(ws, OutRegistered code)].
Proof.
  intros Htext Htest Hprim Hhas st'.
  pose proof (createRoom_fresh ws code text t1 t2 st Htext Htest Hhas) as Hc.
  unfold Map.newKey in Hc. rewrite Hprim in Hc.
  assert (st' = stateOf (createRoom ws code t1 t2 st)) as Hst'.
  { unfold st', onMessage.
    rewrite (dispatch_register ws (register code) code t1 t2 st eq_refl eq_refl).
    by rewrite Hc. }
  rewrite Hc in Hst'. simpl in Hst'. rewrite Hst'. simpl. split_and!; [done|done| | |done].
  - apply get_snoc; [done|]. by apply has_false_get.
  - unfold findRoomByClient.
    destruct (firstRoomOf ws (rooms st)) as [[j [k r]]|] eqn:Hfirst.
    + unfold firstRoomOf in *. by rewrite (list_find_app_l _ _ _ _ _ Hfirst).
    + rewrite (firstRoomOf_snoc ws _ (KPrim code) (Room ws None None t1 t2) Hfirst); [done|].
      unfold occupies. simpl. by rewrite Nat.eqb_refl.
Qed.

Lemma register_creates_room_witness :
  let st := run [Message 1 (Some (register (JStr "1234"))) 10 11] initial in
  rooms (onMessage 2 (Some (register (JNum "5678"))) 20 21 st) =
    [(KPrim (JStr "1234"), Room 1 None None 10 11);
     (KPrim (JNum "5678"), Room 2 None None 20 21)].
Proof.
  intros st.
  destruct (register_creates_room 2 (JNum "5678") "5678" 20 21 st)
    as (_ & H & _); [reflexivity..|].
  exact H.
Defined.

(** X2. Registering and joining compose: after connection [a] registers a
    fresh valid code and connection [b] joins it, the registry holds, after
    the rooms it had, one paired room with sender [a], receiver [b] and no
    metadata, and three messages have been sent, in this order: registered
    to [a], peerConnected to [a], connected to [b]. *)
Theorem register_then_join a b code text t1 t2 t3 t4 st :
  ToString code = Some text → test_code text = true →
  isObject code = false →
  Map.has code (rooms st) = false →
  let st' := run [Message a (Some (register code)) t1 t2;
                  Message b (Some (join code)) t3 t4] st in
  rooms st' = rooms st ++ [(KPrim code, Room a (Some b) None t1 t3)] ∧
  sent st' = sent st ++ [(a, OutRegistered code); (a, OutPeerConnected);
                         (b, OutConnected code)].
Proof.
  intros Htext Htest Hprim Hhas st'.
  pose proof (createRoom_fresh a code text t1 t2 st Htext Htest Hhas) as Hc.
  unfold Map.newKey in Hc. rewrite Hprim in Hc.
  set (st1 := send a (OutRegistered code)
                (Server (rooms st ++ [(KPrim code, Room a None None t1 t2)])
                        (nextRef st) (sent st))) in *.
  assert (Map.get code (rooms st1) = Some (length (rooms st), Room a None None t1 t2)) as Hget.
  { apply get_snoc; [done|]. by apply has_false_get. }
  assert (st' = stateOf (joinRoom b code t3 st1)) as ->.
  { assert (onMessage a (Some (register code)) t1 t2 st = st1) as Hst1.
    { unfold onMessage.
      by rewrite (dispatch_register a (register code) code t1 t2 st eq_refl eq_refl), Hc. }
    change st' with (onMessage b (Some (join code)) t3 t4
                       (onMessage a (Some (register code)) t1 t2 st)).
    rewrite Hst1. unfold onMessage.
    rewrite (dispatch_join b (join code) code t3 t4 st1 eq_refl eq_refl).
    rewrite (joinRoom_free b code text t3 st1 _ _ Htext Htest Hget eq_refl). done. }
  rewrite (joinRoom_free b code text t3 st1 _ _ Htext Htest Hget eq_refl). simpl.
  split.
  - by rewrite update_snoc.
  - by rewrite <- !app_assoc.
Qed.

Lemma register_then_join_witness :
  run [Message 1 (Some (register (JStr "1234"))) 10 11;
       Message 2 (Some (join (JStr "1234"))) 12 13] initial =
  Server [(KPrim (JStr "1234"), Room 1 (Some 2) None 10 12)] 0
         [(1, OutRegistered (JStr "1234")); (1, OutPeerConnected);
          (2, OutConnected (JStr "1234"))].
Proof.
  destruct (register_then_join 1 2 (JStr "1234") "1234" 10 11 12 13 initial)
    as [Hrooms Hsent]; [reflexivity..|].
  reflexivity.
Defined.

(** X3. Registering and closing undo each other on the registry: when a
    connection that occupies no room registers a fresh valid code and then
    closes, the registry is the one before, and nobody is told of a
    disconnection: the registered reply is the only message. *)
Theorem register_then_close ws code text t1 t2 st :
  Map.wf (rooms st) = true →
  ToString code = Some text → test_code text = true →
  isObject code = false →
  Map.has code (rooms st) = false →
  findRoomByClient ws (rooms st) = None →
  let st' := run [Message ws (Some (register code)) t1 t2; Close ws] st in
  rooms st' = rooms st ∧
  sent st' = sent st ++ [(ws, OutRegistered code)].
Proof.
  intros Hwf Htext Htest Hprim Hhas Hnone%findRoomByClient_None st'.
  pose proof (createRoom_fresh ws code text t1 t2 st Htext Htest Hhas) as Hc.
  unfold Map.newKey in Hc. rewrite Hprim in Hc.
  set (st1 := send ws (OutRegistered code)
                (Server (rooms st ++ [(KPrim code, Room ws None None t1 t2)])
                        (nextRef st) (sent st))) in *.
  assert (st' = cleanupRooms ws st1) as ->.
  { change st' with (onClose ws (onMessage ws (Some (register code)) t1 t2 st)).
    unfold onClose, onMessage.
    by rewrite (dispatch_register ws (register code) code t1 t2 st eq_refl eq_refl), Hc. }
  assert (firstRoomOf ws (rooms st1) =
          Some (length (rooms st), (KPrim code, Room ws None None t1 t2))) as Hfirst.
  { apply firstRoomOf_snoc; [done|]. unfold occupies. simpl. by rewrite Nat.eqb_refl. }
  assert (Map.wf (rooms st1) = true) as Hwf1.
  { unfold Map.wf. simpl. rewrite fmap_app. apply distinct_snoc. split_and!.
    - done.
    - simpl. by rewrite Hprim.
    - apply has_false in Hhas. eapply Forall_impl; [exact Hhas|].
      intros [v|j v]; simpl; done. }
  destruct (cleanupRooms_found ws st1 _ _ _ Hwf1 Hfirst) as [-> ->].
  unfold otherClient. simpl. rewrite Nat.eqb_refl, app_nil_r. split; [|done].
  clear. induction (rooms st) as [|e m IH]; simpl; [done|]. by f_equal.
Qed.

Lemma register_then_close_witness :
  let st := run [Message 1 (Some (register (JStr "1234"))) 10 11;
                 Message 2 (Some (join (JStr "1234"))) 12 12] initial in
  rooms (run [Message 3 (Some (register (JStr "5678"))) 20 21; Close 3] st) = rooms st.
Proof.
  intros st.
  destruct (register_then_close 3 (JStr "5678") "5678" 20 21 st) as [H _];
    [reflexivity..|].
  exact H.
Defined.

(** X4. A code that is an array or object and passes the pattern (such as
    the array holding the string "1234") is never found in the registry:
    [register] with it always succeeds and adds a room under a key of its
    own, however many rooms were registered with an equal-looking code, and
    [join] with it is always answered with RoomNotFound, so that such a room
    can never be joined. *)
Theorem object_code_never_found ws code text t1 t2 st :
  isObject code = true →
  ToString code = Some text → test_code text = true →
  createRoom ws code t1 t2 st =
    Returned (send ws (OutRegistered code)
                (Server (rooms st ++ [(KRef (nextRef st) code, Room ws None None t1 t2)])
                        (S (nextRef st)) (sent st))) ∧
  joinRoom ws code t1 st = Returned (send ws RoomNotFound st) ∧
  (∀ (m : Map.t), Map.get code m = None).
Proof.
  intros Hobj Htext Htest. split_and!.
  - rewrite (createRoom_fresh ws code text t1 t2 st Htext Htest).
    + unfold Map.newKey. by rewrite Hobj.
    + apply has_false_get. by apply get_object.
  - unfold joinRoom. by rewrite Htext, Htest, get_object.
  - intros m. by apply get_object.
Qed.

Lemma object_code_never_found_witness :
  let code := JArr [JStr "1234"] in
  let st := run [Message 1 (Some (register code)) 10 11] initial in
  rooms st = [(KRef 0 code, Room 1 None None 10 11)] ∧
  joinRoom 2 code 20 st = Returned (send 2 RoomNotFound st) ∧
  rooms (stateOf (createRoom 3 code 30 31 st)) =
    [(KRef 0 code, Room 1 None None 10 11); (KRef 1 code, Room 3 None None 30 31)].
Proof.
  intros code st.
  destruct (object_code_never_found 2 code "1234" 20 21 st) as (_ & Hjoin & _);
    [reflexivity..|].
  destruct (object_code_never_found 3 code "1234" 30 31 st) as (Hcreate & _);
    [reflexivity..|].
  split_and!; [reflexivity | exact Hjoin | by rewrite Hcreate].
Defined.

(** ** The UnknownType reply *)

(** What the [catch] of the message listener makes of an outcome. *)
Lemma onMessage_outcome ws data t1 t2 st :
  onMessage ws (Some data) t1 t2 st =
  match handleMessage ws data t1 t2 st with
  | Returned st' => st'
  | Thrown st' => send ws InvalidFormat st'
  end.
Proof. reflexivity. Qed.

Lemma strictEqualsString_eq x literal :
  strictEqualsString x literal = true ↔ x = JStr literal.
Proof.
  destruct x; simpl; try (split; [discriminate|congruence]).
  rewrite String.eqb_eq. split; congruence.
Qed.

(** X5. The UnknownType error is sent exactly to the connection whose
    message parsed into a value other than [null] with a [type] that is none
    of the five strings [register], [join], [metadata], [chunk], [complete]
    (absent, or not a string, or another string); no handler of a recognised
    type ever sends it. *)
Theorem UnknownType_iff ws parsed t1 t2 st c :
  (c, UnknownType) ∈ newMessages st (onMessage ws parsed t1 t2 st) ↔
  c = ws ∧
  ∃ data ty, parsed = Some data ∧ Get data "type" = Some ty ∧
    ty ≠ JStr "register" ∧ ty ≠ JStr "join" ∧ ty ≠ JStr "metadata" ∧
    ty ≠ JStr "chunk" ∧ ty ≠ JStr "complete".
Proof.
  destruct parsed as [data|].
  2:{ unfold onMessage. rewrite newMessages_send1, list_elem_of_singleton.
      split; [discriminate|]. by intros (_ & ? & ? & ? & _). }
  rewrite onMessage_outcome. unfold handleMessage.
  destruct (Get data "type") as [ty|] eqn:Hty.
  2:{ rewrite newMessages_send1, list_elem_of_singleton.
      split; [discriminate|]. intros (_ & d & t & [= <-] & Ht & _). congruence. }
  assert (∀ st', (c, UnknownType) ∉ newMessages st st' →
            (ty = JStr "register" ∨ ty = JStr "join" ∨ ty = JStr "metadata" ∨
             ty = JStr "chunk" ∨ ty = JStr "complete") →
            (c, UnknownType) ∈ newMessages st st' ↔
            c = ws ∧ ∃ data0 ty0, Some data = Some data0 ∧ Get data0 "type" = Some ty0 ∧
              ty0 ≠ JStr "register" ∧ ty0 ≠ JStr "join" ∧ ty0 ≠ JStr "metadata" ∧
              ty0 ≠ JStr "chunk" ∧ ty0 ≠ JStr "complete") as Hcase.
  { intros st' Hnot Hty'. split; [done|].
    intros (_ & d & t & [= <-] & Ht & Hn1 & Hn2 & Hn3 & Hn4 & Hn5).
    rewrite Hty in Ht. injection Ht as <-. tauto. }
  destruct (strictEqualsString ty "register") eqn:Hreg.
  { apply strictEqualsString_eq in Hreg. apply Hcase; [|auto]. clear Hcase.
    unfold createRoom. repeat case_match; simplify_eq; log_simpl; not_in_log. }
  destruct (strictEqualsString ty "join") eqn:Hjoin.
  { apply strictEqualsString_eq in Hjoin. apply Hcase; [|auto]. clear Hcase.
    unfold joinRoom. repeat case_match; simplify_eq; log_simpl; not_in_log. }
  destruct (strictEqualsString ty "metadata") eqn:Hmeta.
  { apply strictEqualsString_eq in Hmeta. apply Hcase; [|auto]. clear Hcase.
    unfold handleMetadata. repeat case_match; simplify_eq; log_simpl; not_in_log. }
  destruct (strictEqualsString ty "chunk") eqn:Hchunk.
  { apply strictEqualsString_eq in Hchunk. apply Hcase; [|auto]. clear Hcase.
    unfold forwardChunk. repeat case_match; simplify_eq; log_simpl; not_in_log. }
  destruct (strictEqualsString ty "complete") eqn:Hcomplete.
  { apply strictEqualsString_eq in Hcomplete. apply Hcase; [|auto 6]. clear Hcase.
    unfold handleTransferComplete. repeat case_match; simplify_eq; log_simpl; not_in_log. }
  rewrite newMessages_send1, list_elem_of_singleton. split.
  - intros [= ->]. split; [done|]. exists data, ty.
    split_and!; try done; intros ->; by vm_compute in *.
  - by intros [-> _].
Qed.

(** ** Messages that find no room, or no receiver *)

(** X6. A [metadata], [chunk] or [complete] message from a connection that
    occupies no room is dropped without a trace: the state is the one before,
    with no reply to anyone, whatever else the message holds; a metadata
    message with no name or an oversized size is dropped like any other, since
    the room is looked up first. *)
Theorem message_without_room_dropped ws message ty t1 t2 st :
  findRoomByClient ws (rooms st) = None →
  Get message "type" = Some (JStr ty) →
  ty = "metadata" ∨ ty = "chunk" ∨ ty = "complete" →
  onMessage ws (Some message) t1 t2 st = st.
Proof.
  intros Hnone Hty Hrelay. rewrite onMessage_outcome. unfold handleMessage. rewrite Hty.
  destruct Hrelay as [-> | [-> | ->]]; simpl;
    unfold handleMetadata, forwardChunk, handleTransferComplete; by rewrite Hnone.
Qed.

Lemma message_without_room_dropped_witness :
  let st := run [Message 1 (Some (register (JStr "1234"))) 10 11] initial in
  onMessage 2 (Some (JObj [("type", JStr "metadata"); ("size", JNum "999999999")])) 20 20 st
  = st.
Proof.
  intros st.
  apply (message_without_room_dropped 2 _ "metadata" 20 20 st); [reflexivity..|by left].
Defined.

(** X7. While the room a connection resolves to has no receiver, its [chunk]
    and [complete] messages are dropped: the state is the one before, the
    room is not removed and not even its lastActivity is touched. *)
Theorem unpaired_room_drops_chunk_and_complete ws message ty i r t1 t2 st :
  findRoomByClient ws (rooms st) = Some (i, r) →
  receiver r = None →
  Get message "type" = Some (JStr ty) →
  ty = "chunk" ∨ ty = "complete" →
  onMessage ws (Some message) t1 t2 st = st.
Proof.
  intros Hroom Hrcv Hty Hrelay. rewrite onMessage_outcome. unfold handleMessage. rewrite Hty.
  destruct Hrelay as [-> | ->]; simpl;
    unfold forwardChunk, handleTransferComplete; by rewrite Hroom, Hrcv.
Qed.

Lemma unpaired_room_drops_chunk_and_complete_witness :
  let st := run [Message 1 (Some (register (JStr "1234"))) 10 11] initial in
  onMessage 1 (Some complete) 20 20 st = st.
Proof.
  intros st.
  apply (unpaired_room_drops_chunk_and_complete 1 complete "complete" 0
           (Room 1 None None 10 11) 20 20 st); [reflexivity..|by right].
Defined.

(** X8. A [chunk] message from a connection whose resolved room, the first
    room in insertion order that it occupies ([findRoomByClient]), has a
    receiver sends one message, to that room's receiver (the sender's own
    chunks included, and the receiver's chunks going to the receiver itself),
    carrying the value of the message's [chunk] field as it is ([undefined]
    when the field is absent); in the registry only the lastActivity of that
    room changes. A paired room that the connection occupies behind another
    room of its own is not the room meant. *)
Theorem chunk_relayed_verbatim ws message i r rcv t1 t2 st :
  findRoomByClient ws (rooms st) = Some (i, r) →
  receiver r = Some rcv →
  Get message "type" = Some (JStr "chunk") →
  let st' := onMessage ws (Some message) t1 t2 st in
  ∃ k chunk,
    Get message "chunk" = Some chunk ∧
    rooms st !! i = Some (k, r) ∧
    sent st' = sent st ++ [(rcv, OutChunk chunk)] ∧
    rooms st' !! i = Some (k, Room (sender r) (Some rcv) (meta r) (createdAt r) t1) ∧
    (∀ j, j ≠ i → rooms st' !! j = rooms st !! j) ∧
    length (rooms st') = length (rooms st).
Proof.
  intros Hroom Hrcv Hty st'.
  destruct (findRoomByClient_lookup _ _ _ _ Hroom) as (k & Hi & _).
  assert (∃ chunk, Get message "chunk" = Some chunk) as [chunk Hchunk]
    by (destruct message; simpl in *; eauto; done).
  assert (st' = send rcv (OutChunk chunk)
                  (withRooms (Map.update i (touched t1) (rooms st)) st)) as ->.
  { unfold st'. rewrite onMessage_outcome, (dispatch_chunk _ _ _ _ _ Hty).
    unfold forwardChunk. by rewrite Hroom, Hrcv, Hchunk. }
  exists k, chunk. simpl. split_and!; [done|done|done| | |].
  - rewrite (update_lookup i _ _ k r Hi). unfold touched. by rewrite Hrcv.
  - intros j Hj. by apply update_lookup_ne.
  - apply update_length.
Qed.

Lemma chunk_relayed_verbatim_witness :
  let st := run [Message 1 (Some (register (JStr "1234"))) 10 11;
                 Message 2 (Some (join (JStr "1234"))) 12 12] initial in
  let message := JObj [("type", JStr "chunk"); ("chunk", JStr "deadbeef")] in
  sent (onMessage 1 (Some message) 20 20 st) = sent st ++ [(2, OutChunk (JStr "deadbeef"))].
Proof.
  intros st message.
  destruct (chunk_relayed_verbatim 1 message 0 (Room 1 (Some 2) None 10 12) 2 20 20 st)
    as (k & chunk & Hchunk & _ & Hsent & _); [reflexivity..|].
  injection Hchunk as <-. exact Hsent.
Defined.

(** ** The stored name *)

Lemma substring0_length n s : String.length (substring 0 n s) = Nat.min n (String.length s).
Proof.
  revert n. induction s as [|c s IH]; intros [|n]; simpl; auto.
Qed.

Lemma substring0_all n s : String.length s ≤ n → substring 0 n s = s.
Proof.
  revert n. induction s as [|c s IH]; intros [|n] Hlen; simpl in *; try done; try lia.
  f_equal. apply IH. lia.
Qed.

Lemma substring0_prefix n s : ∃ rest, s = String.append (substring 0 n s) rest.
Proof.
  revert n. induction s as [|c s IH]; intros [|n]; simpl.
  - by exists EmptyString.
  - by exists EmptyString.
  - by exists (String c s).
  - destruct (IH n) as [rest Hrest]. exists rest. by rewrite <- Hrest.
Qed.

(** X9. An accepted metadata message whose name is a string stores, and
    forwards to the receiver when there is one, the first 256 characters of
    the name: a name of at most 256 characters is kept whole, a longer one is
    cut to exactly 256. *)
Theorem metadata_name_truncated st ws i r message fileSize (s : string) now :
  findRoomByClient ws (rooms st) = Some (i, r) →
  Get message "size" ≫= parseInt = Some fileSize →
  greaterThan fileSize sizeLimit = false →
  Get message "name" = Some (JStr s) →
  ∃ ty st' k stored,
    Get message "type" = Some ty ∧
    handleMetadata ws message now st = Returned st' ∧
    rooms st !! i = Some (k, r) ∧
    rooms st' !! i =
      Some (k, Room (sender r) (receiver r) (Some (Metadata (JStr stored) fileSize ty))
                    (createdAt r) now) ∧
    sent st' = sent st ++ match receiver r with
                          | Some rcv => [(rcv, OutMetadata (Metadata (JStr stored) fileSize ty))]
                          | None => []
                          end ∧
    String.length stored = Nat.min 256 (String.length s) ∧
    (∃ rest, s = String.append stored rest) ∧
    (String.length s ≤ 256 → stored = s).
Proof.
  intros Hroom Hsize Hgt Hname.
  destruct (handleMetadata_accepted ws message now st i r fileSize (JStr (substring 0 256 s)))
    as (ty & Hty & Hh); [done|done|done|by rewrite Hname|].
  destruct (findRoomByClient_lookup _ _ _ _ Hroom) as (k & Hi & _).
  destruct (metadataStored_rooms i r k (Metadata (JStr (substring 0 256 s)) fileSize ty)
              now st Hi) as (_ & Hat & _ & Hsent).
  exists ty, (metadataStored i r (Metadata (JStr (substring 0 256 s)) fileSize ty) now st),
    k, (substring 0 256 s).
  split_and!; [done|done|done|done|done| | |].
  - apply substring0_length.
  - apply substring0_prefix.
  - apply substring0_all.
Qed.

Lemma metadata_name_truncated_witness :
  let st := run [Message 1 (Some (register (JStr "1234"))) 10 11] initial in
  let message := JObj [("type", JStr "metadata"); ("name", JStr "report.pdf");
                       ("size", JNum "1000")] in
  ∃ st', handleMetadata 1 message 20 st = Returned st' ∧
    rooms st' !! 0 =
      Some (KPrim (JStr "1234"),
            Room 1 None (Some (Metadata (JStr "report.pdf") (Num 1000) (JStr "metadata")))
                 10 20).
Proof.
  intros st message.
  destruct (metadata_name_truncated st 1 0 (Room 1 None None 10 11) message (Num 1000)
              "report.pdf" 20)
    as (ty & st' & k & stored & Hty & Hh & Hk & Hat & _ & _ & _ & Hall); [reflexivity..|].
  injection Hty as <-. injection Hk as <-.
  rewrite (Hall ltac:(vm_compute; lia)) in Hat.
  exists st'. split; [exact Hh | exact Hat].
Defined.

(** ** Invariants of the registry *)

Lemma sameValueZero_sym a b : sameValueZero a b = sameValueZero b a.
Proof.
  destruct a, b; simpl; try done.
  - by destruct b, b0.
  - apply String.eqb_sym.
  - apply String.eqb_sym.
Qed.

Lemma sameKey_sym a b : Map.sameKey a b = Map.sameKey b a.
Proof.
  destruct a, b; simpl; try done; [apply sameValueZero_sym | apply Nat.eqb_sym].
Qed.

Lemma distinct_lookup ks i j k1 k2 :
  Map.distinct ks = true → ks !! i = Some k1 → ks !! j = Some k2 →
  Map.sameKey k1 k2 = true → i = j.
Proof.
  revert i j. induction ks as [|k ks IH]; intros i j Hd Hi Hj Hsame; [done|].
  apply distinct_cons in Hd as (_ & Hne & Hd). rewrite Forall_forall in Hne.
  destruct i as [|i], j as [|j]; simpl in *; simplify_eq.
  - done.
  - apply list_elem_of_lookup_2 in Hj. apply Hne in Hj. congruence.
  - apply list_elem_of_lookup_2 in Hi. apply Hne in Hi. rewrite sameKey_sym in Hi. congruence.
  - f_equal. by apply IH.
Qed.

Lemma wf_keyOk (m : Map.t) k r : Map.wf m = true → (k, r) ∈ m → Map.keyOk k = true.
Proof.
  unfold Map.wf. induction m as [|[k0 r0] m IH]; simpl; [by intros _ ?%elem_of_nil|].
  intros (Hok & _ & Hd)%distinct_cons [[= -> ->]|Hin]%elem_of_cons; auto.
Qed.

(** In a [Map] a key is found where it is. *)
Lemma get_at (m : Map.t) j code r :
  Map.wf m = true → m !! j = Some (KPrim code, r) → Map.get code m = Some (j, r).
Proof.
  intros Hwf Hj. unfold Map.get.
  assert (Map.keyOk (KPrim code) = true) as Hok
    by (eapply wf_keyOk; [done|by eapply list_elem_of_lookup_2]).
  assert (list_find (λ e : key * room, Map.matches code e.1 = true) m
          = Some (j, (KPrim code, r))) as ->; [|done].
  apply list_find_Some. split_and!; [done|by apply (sameKey_refl (KPrim code))|].
  intros j' [k' r'] Hj' Hlt Hmatch. simpl in Hmatch. apply matches_eq in Hmatch as ->.
  assert (j' = j); [|lia].
  apply (distinct_lookup m.*1 j' j (KPrim code) (KPrim code)); [done| | |].
  - by rewrite list_lookup_fmap, Hj'.
  - by rewrite list_lookup_fmap, Hj.
  - by apply sameKey_refl.
Qed.

(** X10. At every reachable state the registry is a map of valid codes: no
    two rooms have the same key, every key reads as exactly four decimal
    digits, and [rooms.get] of a string or number code finds the room stored
    under that code, wherever it stands in the registry. *)
Theorem reachable_codes_distinct_and_valid st :
  reachable st →
  (∀ i j k1 r1 k2 r2,
     rooms st !! i = Some (k1, r1) → rooms st !! j = Some (k2, r2) →
     Map.sameKey k1 k2 = true → i = j) ∧
  (∀ k r, (k, r) ∈ rooms st →
     ∃ a b c d,
       ToString (keyValue k) = Some (String a (String b (String c (String d EmptyString)))) ∧
       isDigit a = true ∧ isDigit b = true ∧ isDigit c = true ∧ isDigit d = true) ∧
  (∀ j code r, rooms st !! j = Some (KPrim code, r) →
     Map.get code (rooms st) = Some (j, r)).
Proof.
  intros (Hwf & Hvalid & _)%reachable_invariant. split_and!.
  - intros i j k1 r1 k2 r2 Hi Hj Hsame.
    apply (distinct_lookup (rooms st).*1 i j k1 k2); [done| | |done].
    + by rewrite list_lookup_fmap, Hi.
    + by rewrite list_lookup_fmap, Hj.
  - intros k r Hin. rewrite Forall_forall in Hvalid.
    destruct (Hvalid k) as (text & Htext & Htest).
    { apply list_elem_of_fmap. by exists (k, r). }
    apply test_code_true in Htest as (a & b & c & d & -> & ?). by exists a, b, c, d.
  - intros j code r Hj. by apply get_at.
Qed.

Lemma reachable_codes_distinct_and_valid_witness :
  let st := run [Message 1 (Some (register (JStr "1234"))) 10 11;
                 Message 2 (Some (register (JStr "5678"))) 12 13] initial in
  Map.get (JStr "5678") (rooms st) = Some (1, Room 2 None None 12 13).
Proof.
  intros st.
  destruct (reachable_codes_distinct_and_valid st) as (_ & _ & Hget).
  { apply run_reachable, reachable_initial. }
  apply Hget. reflexivity.
Defined.

Lemma laterStateOf_refl r : laterStateOf r r.
Proof. by repeat split. Qed.

Lemma elem_of_update i f (m : Map.t) k r' :
  (k, r') ∈ Map.update i f m →
  (k, r') ∈ m ∨ ∃ r, m !! i = Some (k, r) ∧ r' = f r.
Proof.
  unfold Map.update. intros (j & Hj)%list_elem_of_lookup_1.
  destruct (decide (i = j)) as [->|Hne].
  - rewrite list_lookup_alter_eq in Hj.
    destruct (m !! j) as [[k0 r0]|]; simplify_eq/=. right. by exists r0.
  - rewrite list_lookup_alter_ne in Hj by done. left. by eapply list_elem_of_lookup_2.
Qed.

Lemma elem_of_Map_delete k0 (m : Map.t) e : e ∈ Map.delete k0 m → e ∈ m.
Proof. intros He. eapply elem_of_sublist; [exact He | apply delete_sublist]. Qed.

(** Where a room of the state after a handler comes from: rooms are only
    changed by the three field assignments, each giving a later state of the
    same room, are only removed as a whole, and are only added by
    [createRoom]. *)
Lemma handleMessage_rooms ws message t1 t2 st k r' :
  (k, r') ∈ rooms (stateOf (handleMessage ws message t1 t2 st)) →
  (∃ r, (k, r) ∈ rooms st ∧ laterStateOf r r') ∨
  (Get message "type" = Some (JStr "register") ∧ r' = Room ws None None t1 t2).
Proof.
  assert (∀ i f (r0 : room), (∀ r, rooms st !! i = Some (k, r) → laterStateOf r (f r)) →
            (k, r') ∈ Map.update i f (rooms st) →
            ∃ r, (k, r) ∈ rooms st ∧ laterStateOf r r') as Hupd.
  { intros i f _ Hf [Hin|(r & Hi & ->)]%elem_of_update.
    - exists r'. split; [done|apply laterStateOf_refl].
    - exists r. split; [by eapply list_elem_of_lookup_2|by apply Hf]. }
  assert ((k, r') ∈ rooms st → ∃ r, (k, r) ∈ rooms st ∧ laterStateOf r r') as Hsame
    by (intros Hin; exists r'; split; [done|apply laterStateOf_refl]).
  unfold handleMessage.
  destruct (Get message "type") as [ty|] eqn:Hty; [|by left; apply Hsame].
  destruct (strictEqualsString ty "register") eqn:Hreg.
  { apply strictEqualsString_eq in Hreg as ->.
    destruct (Get message "code") as [code|]; [|by left; apply Hsame].
    unfold createRoom. destruct (ToString code) as [text|]; [|by left; apply Hsame].
    destruct (test_code text); simpl; [|by left; apply Hsame].
    destruct (Map.has code (rooms st)); simpl; [by left; apply Hsame|].
    unfold Map.set_new. intros [Hin|Hin%list_elem_of_singleton]%elem_of_app.
    - left. by apply Hsame.
    - right. by simplify_eq. }
  destruct (strictEqualsString ty "join").
  { destruct (Get message "code") as [code|]; [|by left; apply Hsame].
    unfold joinRoom. destruct (ToString code) as [text|]; [|by left; apply Hsame].
    destruct (test_code text); simpl; [|by left; apply Hsame].
    destruct (Map.get code (rooms st)) as [[i r0]|] eqn:Hget; simpl; [|by left; apply Hsame].
    destruct (receiver r0) eqn:Hrcv; simpl; [by left; apply Hsame|].
    intros Hin. left. apply (Hupd i (joined ws t1) r0); [|done].
    intros r Hi. apply get_Some in Hget as (k0 & Hi0 & _).
    rewrite Hi0 in Hi. injection Hi as -> ->.
    repeat split. intros x Hx. congruence. }
  destruct (strictEqualsString ty "metadata").
  { unfold handleMetadata.
    destruct (findRoomByClient ws (rooms st)) as [[i r0]|]; [|by left; apply Hsame].
    destruct (Get message "size" ≫= parseInt) as [fileSize|]; [|by left; apply Hsame].
    destruct (greaterThan fileSize sizeLimit); [by left; apply Hsame|].
    destruct (Get message "name" ≫= _) as [nm|]; [|by left; apply Hsame].
    rewrite Hty.
    assert ((k, r') ∈ Map.update i (withMetadata (Metadata nm fileSize ty) t1) (rooms st) →
            ∃ r, (k, r) ∈ rooms st ∧ laterStateOf r r') as Hmd.
    { apply (Hupd i _ r0). intros r _. by repeat split. }
    destruct (receiver r0); simpl; intros Hin; left; by apply Hmd. }
  destruct (strictEqualsString ty "chunk").
  { unfold forwardChunk.
    destruct (findRoomByClient ws (rooms st)) as [[i r0]|]; [|by left; apply Hsame].
    destruct (receiver r0); [|by left; apply Hsame].
    assert ((k, r') ∈ Map.update i (touched t1) (rooms st) →
            ∃ r, (k, r) ∈ rooms st ∧ laterStateOf r r') as Htouch.
    { apply (Hupd i _ r0). intros r _. by repeat split. }
    destruct (Get message "chunk"); simpl; intros Hin; left; by apply Htouch. }
  destruct (strictEqualsString ty "complete"); simpl; [|by left; apply Hsame].
  unfold handleTransferComplete.
  destruct (findRoomByClient ws (rooms st)) as [[i r0]|]; [|by left; apply Hsame].
  destruct (receiver r0); [|by left; apply Hsame].
  simpl. intros Hin%elem_of_Map_delete. left. by apply Hsame.
Qed.

(** X11. No event changes what a room is. Every room in the registry after
    an event either was there before under the same key, with the same sender
    and creation time and with the receiver it had if it had one (a receiver,
    once set, is never replaced), or it is the room that this event, a
    [register] message, has just created for its sender. *)
Theorem rooms_keep_their_identity e st k r' :
  (k, r') ∈ rooms (step e st) →
  (∃ r, (k, r) ∈ rooms st ∧ laterStateOf r r') ∨
  (∃ ws data t1 t2,
     e = Message ws (Some data) t1 t2 ∧
     Get data "type" = Some (JStr "register") ∧
     r' = Room ws None None t1 t2).
Proof.
  destruct e as [ws [data|] t1 t2|ws]; unfold step.
  - rewrite onMessage_outcome.
    assert (rooms (match handleMessage ws data t1 t2 st with
                   | Returned st' => st'
                   | Thrown st' => send ws InvalidFormat st'
                   end) = rooms (stateOf (handleMessage ws data t1 t2 st))) as ->
      by by destruct (handleMessage ws data t1 t2 st).
    intros [Hold|[Hty ->]]%handleMessage_rooms; [by left|].
    right. by exists ws, data, t1, t2.
  - simpl. intros Hin. left. exists r'. split; [done|apply laterStateOf_refl].
  - unfold onClose, cleanupRooms.
    destruct (firstRoomOf ws (rooms st)) as [[i [code r]]|].
    + destruct (otherClient ws r); simpl; intros Hin%elem_of_Map_delete;
        left; exists r'; (split; [done|apply laterStateOf_refl]).
    + intros Hin. left. exists r'. split; [done|apply laterStateOf_refl].
Qed.

Lemma rooms_keep_their_identity_witness :
  let st := run [Message 1 (Some (register (JStr "1234"))) 10 11;
                 Message 2 (Some (join (JStr "1234"))) 12 12] initial in
  let e := Message 3 (Some (join (JStr "1234"))) 20 20 in
  ∃ r, (KPrim (JStr "1234"), r) ∈ rooms st ∧
       laterStateOf r (Room 1 (Some 2) None 10 12).
Proof.
  intros st e.
  destruct (rooms_keep_their_identity e st (KPrim (JStr "1234")) (Room 1 (Some 2) None 10 12))
    as [Hold|(ws & data & t1 & t2 & _ & _ & Hnew)].
  - vm_compute. apply list_elem_of_here.
  - exact Hold.
  - discriminate Hnew.
Defined.

(** ** Metadata sent twice, and sizes in decimal *)

(** Assigning fields other than sender and receiver does not change which
    room a connection resolves to. *)
Lemma findRoomByClient_update ws i f (m : Map.t) :
  (∀ r, occupies ws (f r) = occupies ws r) →
  findRoomByClient ws (Map.update i f m) =
  (λ '(j, r), (j, if decide (j = i) then f r else r)) <$> findRoomByClient ws m.
Proof.
  intros Hf. unfold findRoomByClient, firstRoomOf, Map.update. revert i.
  induction m as [|[k r] m IH]; intros i; [done|].
  destruct i as [|i]; simpl.
  - rewrite Hf. case_decide; [done|].
    destruct (list_find _ m) as [[j [k' r']]|]; simpl; done.
  - case_decide; [done|]. specialize (IH i).
    change (list_alter ?g i m) with (alter g i m).
    destruct (list_find _ (alter _ i m)) as [[j [k' r']]|];
      destruct (list_find _ m) as [[j0 [k0 r0]]|]; simpl in *; try done.
    injection IH as -> ->. f_equal. f_equal.
    repeat case_decide; done || lia.
Qed.

Lemma update_update i f g (m : Map.t) :
  Map.update i f (Map.update i g m) = Map.update i (f ∘ g) m.
Proof.
  unfold Map.update. rewrite list_alter_alter_eq. by apply list_alter_ext.
Qed.

(** X12. Metadata is overwritten, not merged or refused: when a connection
    sends two accepted metadata messages, the registry after both is the one
    the second alone would give, and the receiver, if there is one, is
    forwarded the first and then the second. *)
Theorem metadata_last_wins st ws i r m1 m2 size1 size2 nm1 nm2 now1 now2 :
  findRoomByClient ws (rooms st) = Some (i, r) →
  Get m1 "size" ≫= parseInt = Some size1 → greaterThan size1 sizeLimit = false →
  Get m1 "name" ≫= (λ n, slice0 n 256) = Some nm1 →
  Get m2 "size" ≫= parseInt = Some size2 → greaterThan size2 sizeLimit = false →
  Get m2 "name" ≫= (λ n, slice0 n 256) = Some nm2 →
  ∃ ty1 ty2 st1 st2,
    Get m1 "type" = Some ty1 ∧ Get m2 "type" = Some ty2 ∧
    handleMetadata ws m1 now1 st = Returned st1 ∧
    handleMetadata ws m2 now2 st1 = Returned st2 ∧
    rooms st2 = rooms (stateOf (handleMetadata ws m2 now2 st)) ∧
    sent st2 = sent st ++ match receiver r with
                          | Some rcv => [(rcv, OutMetadata (Metadata nm1 size1 ty1));
                                         (rcv, OutMetadata (Metadata nm2 size2 ty2))]
                          | None => []
                          end.
Proof.
  intros Hroom Hs1 Hg1 Hn1 Hs2 Hg2 Hn2.
  destruct (handleMetadata_accepted ws m1 now1 st i r size1 nm1) as (ty1 & Hty1 & Hh1);
    [done..|].
  destruct (handleMetadata_accepted ws m2 now2 st i r size2 nm2) as (ty2 & Hty2 & Hh2);
    [done..|].
  set (md1 := Metadata nm1 size1 ty1) in *. set (md2 := Metadata nm2 size2 ty2) in *.
  set (st1 := metadataStored i r md1 now1 st) in *.
  assert (rooms st1 = Map.update i (withMetadata md1 now1) (rooms st)) as Hrooms1
    by (unfold st1, metadataStored; by destruct (receiver r)).
  assert (sent st1 = sent st ++ match receiver r with
                                | Some rcv => [(rcv, OutMetadata md1)]
                                | None => []
                                end) as Hsent1
    by (unfold st1, metadataStored; destruct (receiver r); simpl; by rewrite ?app_nil_r).
  assert (findRoomByClient ws (rooms st1) = Some (i, withMetadata md1 now1 r)) as Hroom1.
  { rewrite Hrooms1, findRoomByClient_update by done. rewrite Hroom. simpl.
    by rewrite decide_True. }
  destruct (handleMetadata_accepted ws m2 now2 st1 i _ size2 nm2 Hroom1 Hs2 Hg2 Hn2)
    as (ty2' & Hty2' & Hh12).
  rewrite Hty2 in Hty2'. injection Hty2' as <-. fold md2 in Hh12.
  exists ty1, ty2, st1, (metadataStored i (withMetadata md1 now1 r) md2 now2 st1).
  split_and!; [done|done|done|done| |].
  - rewrite Hh2. simpl.
    transitivity (Map.update i (withMetadata md2 now2) (rooms st1)).
    { unfold metadataStored. by destruct (receiver (withMetadata md1 now1 r)). }
    transitivity (Map.update i (withMetadata md2 now2) (rooms st)).
    { rewrite Hrooms1, update_update. done. }
    unfold metadataStored. by destruct (receiver r).
  - unfold metadataStored at 1. simpl.
    destruct (receiver r); simpl; rewrite Hsent1; [by rewrite <- app_assoc|done].
Qed.

Lemma metadata_last_wins_witness :
  let st := run [Message 1 (Some (register (JStr "1234"))) 10 11;
                 Message 2 (Some (join (JStr "1234"))) 12 12] initial in
  let m1 := JObj [("type", JStr "metadata"); ("name", JStr "a"); ("size", JNum "1")] in
  let m2 := JObj [("type", JStr "metadata"); ("name", JStr "b"); ("size", JNum "2")] in
  rooms (run [Message 1 (Some m1) 20 20; Message 1 (Some m2) 21 21] st) =
  rooms (run [Message 1 (Some m2) 21 21] st).
Proof.
  intros st m1 m2.
  destruct (metadata_last_wins st 1 0 (Room 1 (Some 2) None 10 12) m1 m2
              (Num 1) (Num 2) (JStr "a") (JStr "b") 20 21)
    as (ty1 & ty2 & st1 & st2 & _ & _ & H1 & H2 & Hrooms & _); [reflexivity..|].
  injection H1 as <-. injection H2 as <-. exact Hrooms.
Defined.

(** X13. A size sent as a string that is a decimal numeral, or as a number
    that is a non-negative integer of at most 2^53 (its text is then the
    numeral of its value, without leading zeros), is read as the integer the
    numeral writes: the metadata message of a connection that occupies a room
    is refused with FileTooLarge exactly when that integer exceeds 209715200.
    Numbers beyond 2^53 are left out: their text need not write their value,
    and from 1e21 on it is in exponent form. *)
Theorem metadata_decimal_size st ws i r message d ds now :
  findRoomByClient ws (rooms st) = Some (i, r) →
  Forall (λ d, d < 10) (d :: ds) →
  (Get message "size" = Some (JNum (numeral (d :: ds))) ∧
   (d ≠ 0 ∨ ds = []) ∧ (numeralValue (d :: ds) ≤ 2 ^ 53)%Z) ∨
  Get message "size" = Some (JStr (numeral (d :: ds))) →
  Get message "size" ≫= parseInt = Some (Num (numeralValue (d :: ds))) ∧
  (handleMetadata ws message now st = Returned (send ws FileTooLarge st) ↔
   (209715200 < numeralValue (d :: ds))%Z).
Proof.
  intros Hroom Hds Hsize.
  destruct (parseInt_numeral d ds Hds) as [Hparse _].
  assert (Get message "size" ≫= parseInt = Some (Num (numeralValue (d :: ds)))) as Hread.
  { destruct Hsize as [[-> _] | ->].
    - change (Some (JNum (numeral (d :: ds))) ≫= parseInt)
        with (Some (parseIntString (numeral (d :: ds)))).
      by rewrite Hparse.
    - change (Some (JStr (numeral (d :: ds))) ≫= parseInt)
        with (Some (parseIntString (numeral (d :: ds)))).
      by rewrite Hparse. }
  split; [done|].
  rewrite (handleMetadata_rejects_only_large ws message now st i r _ Hroom Hread).
  unfold sizeLimit. split; [intros (z & [= <-] & Hz); lia|].
  intros Hz. exists (numeralValue (d :: ds)). split; [done|lia].
Qed.

Lemma metadata_decimal_size_witness :
  let st := run [Message 1 (Some (register (JStr "1234"))) 10 11] initial in
  let asString := JObj [("type", JStr "metadata"); ("name", JStr "a");
                        ("size", JStr "209715201")] in
  let asNumber := JObj [("type", JStr "metadata"); ("name", JStr "a");
                        ("size", JNum "209715201")] in
  handleMetadata 1 asString 20 st = Returned (send 1 FileTooLarge st) ∧
  handleMetadata 1 asNumber 20 st = Returned (send 1 FileTooLarge st).
Proof.
  intros st asString asNumber. split.
  - destruct (metadata_decimal_size st 1 0 (Room 1 None None 10 11) asString
                2 [0; 9; 7; 1; 5; 2; 0; 1] 20) as [_ [_ H]].
    + reflexivity.
    + repeat constructor.
    + right. reflexivity.
    + apply H. vm_compute. reflexivity.
  - destruct (metadata_decimal_size st 1 0 (Room 1 None None 10 11) asNumber
                2 [0; 9; 7; 1; 5; 2; 0; 1] 20) as [_ [_ H]].
    + reflexivity.
    + repeat constructor.
    + left. split; [reflexivity|]. split; [by left|]. vm_compute. discriminate.
    + apply H. vm_compute. reflexivity.
Defined.

(** X22. For a metadata message from a connection that occupies a room, whose
    size [parseInt] reads as [NaN] (as it does a missing size) or as a
    negative integer, the outcome of [handleMetadata] is not the FileTooLarge
    refusal; and when the name of the message is a string or an array, so that
    [name.slice(0, 256)] returns, the metadata is stored in the room the
    connection resolves to, with that [NaN] or negative size, the room's
    lastActivity is set, and the metadata is forwarded to the receiver when
    the room has one. For a metadata message of a connection that occupies a
    room, FileTooLarge is the outcome exactly when the size reads as an
    integer strictly above 200*1024*1024. *)
Theorem metadata_nan_or_negative_size st ws i r message fileSize now :
  findRoomByClient ws (rooms st) = Some (i, r) →
  Get message "size" ≫= parseInt = Some fileSize →
  fileSize = NaN ∨ (∃ z, fileSize = Num z ∧ (z < 0)%Z) →
  (Get message "size" = Some JUndefined → fileSize = NaN) ∧
  handleMetadata ws message now st ≠ Returned (send ws FileTooLarge st) ∧
  (∀ nm, Get message "name" ≫= (λ n, slice0 n 256) = Some nm →
     ∃ ty st' k,
       Get message "type" = Some ty ∧
       handleMetadata ws message now st = Returned st' ∧
       rooms st !! i = Some (k, r) ∧
       rooms st' !! i =
         Some (k, Room (sender r) (receiver r) (Some (Metadata nm fileSize ty))
                       (createdAt r) now) ∧
       sent st' = sent st ++ match receiver r with
                             | Some rcv => [(rcv, OutMetadata (Metadata nm fileSize ty))]
                             | None => []
                             end) ∧
  (∀ ws' message' now' fileSize',
     is_Some (findRoomByClient ws' (rooms st)) →
     Get message' "size" ≫= parseInt = Some fileSize' →
     handleMetadata ws' message' now' st = Returned (send ws' FileTooLarge st) ↔
     ∃ z, fileSize' = Num z ∧ (200 * 1024 * 1024 < z)%Z).
Proof.
  intros Hroom Hsize Hodd.
  assert (greaterThan fileSize sizeLimit = false) as Hgt.
  { destruct Hodd as [->|(z & -> & Hz)]; [done|].
    simpl. apply Z.ltb_ge. unfold sizeLimit. lia. }
  split_and!.
  - intros Hmissing. rewrite Hmissing in Hsize. by injection Hsize as <-.
  - intros Hrejected.
    apply (handleMetadata_rejects_only_large ws message now st i r fileSize) in Hrejected
      as (z & -> & Hz); [|done..].
    simpl in Hgt. apply Z.ltb_ge in Hgt. lia.
  - intros nm Hname.
    destruct (handleMetadata_accepted ws message now st i r fileSize nm)
      as (ty & Hty & Hh); [done..|].
    destruct (findRoomByClient_lookup _ _ _ _ Hroom) as (k & Hi & _).
    destruct (metadataStored_rooms i r k (Metadata nm fileSize ty) now st Hi)
      as (_ & Hat & _ & Hsent).
    by exists ty, (metadataStored i r (Metadata nm fileSize ty) now st), k.
  - intros ws' message' now' fileSize' [[i' r'] Hroom'] Hsize'.
    by apply handleMetadata_rejects_only_large with i' r'.
Qed.

Lemma metadata_nan_or_negative_size_witness :
  let st := run [Message 1 (Some (register (JStr "1234"))) 10 11;
                 Message 2 (Some (join (JStr "1234"))) 12 12] initial in
  let message := JObj [("type", JStr "metadata"); ("name", JStr "a.bin");
                       ("size", JStr "-5")] in
  let md := Metadata (JStr "a.bin") (Num (-5)) (JStr "metadata") in
  ∃ st', handleMetadata 1 message 20 st = Returned st' ∧
    rooms st' !! 0 = Some (KPrim (JStr "1234"), Room 1 (Some 2) (Some md) 10 20) ∧
    sent st' = sent st ++ [(2, OutMetadata md)].
Proof.
  intros st message md.
  destruct (metadata_nan_or_negative_size st 1 0 (Room 1 (Some 2) None 10 12) message
              (Num (-5)) 20) as (_ & _ & Hstored & _);
    [reflexivity|reflexivity|right; exists (-5)%Z; split; [reflexivity|lia]|].
  destruct (Hstored (JStr "a.bin") eq_refl) as (ty & st' & k & Hty & Hh & Hk & Hat & Hsent).
  injection Hty as <-. injection Hk as <-.
  exists st'. split_and!; [exact Hh|exact Hat|exact Hsent].
Defined.

(** ** Closing, again *)

(** X14. Nothing stops the sender of a room from joining it, and when the
    connection that is both sender and receiver of its room closes, the
    PeerDisconnected error is sent to that closing connection itself; the
    room is removed as usual. *)
Theorem own_room_closed st ws i k r :
  reachable st →
  firstRoomOf ws (rooms st) = Some (i, (k, r)) →
  sender r = ws → receiver r = Some ws →
  sent (onClose ws st) = sent st ++ [(ws, PeerDisconnected)] ∧
  rooms (onClose ws st) = delete i (rooms st).
Proof.
  intros (Hwf & _)%reachable_invariant Hfirst Hs Hr.
  destruct (cleanupRooms_found ws st i k r Hwf Hfirst) as [Hrooms Hsent].
  unfold onClose. rewrite Hrooms, Hsent. unfold otherClient.
  by rewrite Hs, Nat.eqb_refl, Hr.
Qed.

Lemma own_room_closed_witness :
  let st := run [Message 1 (Some (register (JStr "1234"))) 10 11;
                 Message 1 (Some (join (JStr "1234"))) 12 12] initial in
  rooms st = [(KPrim (JStr "1234"), Room 1 (Some 1) None 10 12)] ∧
  sent (onClose 1 st) = sent st ++ [(1, PeerDisconnected)].
Proof.
  intros st.
  destruct (own_room_closed st 1 0 (KPrim (JStr "1234")) (Room 1 (Some 1) None 10 12))
    as [Hsent _]; [apply run_reachable, reachable_initial|reflexivity..|].
  split; [reflexivity | exact Hsent].
Defined.

Lemma roomCount_delete_le c i (m : Map.t) : roomCount c (delete i m) ≤ roomCount c m.
Proof.
  unfold roomCount. revert i. induction m as [|e m IH]; intros [|i]; simpl; try done.
  - rewrite filter_cons. case_decide; simpl; lia.
  - rewrite !filter_cons. specialize (IH i). case_decide; simpl; lia.
Qed.

(** X15. A close removes exactly one of the rooms the closing connection
    occupies, the first: of [n] rooms it occupied, [n - 1] stay in the
    registry, still naming the closed connection as an occupant; no
    connection occupies more rooms than before. *)
Theorem close_removes_only_the_first_room st ws :
  reachable st →
  roomCount ws (rooms (onClose ws st)) = pred (roomCount ws (rooms st)) ∧
  (∀ c, roomCount c (rooms (onClose ws st)) ≤ roomCount c (rooms st)) ∧
  (∀ j e, rooms (onClose ws st) !! j = Some e → e ∈ rooms st).
Proof.
  intros (Hwf & _)%reachable_invariant. unfold onClose.
  destruct (firstRoomOf ws (rooms st)) as [[i [k r]]|] eqn:Hfirst.
  - destruct (cleanupRooms_found ws st i k r Hwf Hfirst) as [Hrooms _]. rewrite Hrooms.
    apply firstRoomOf_Some in Hfirst as (Hi & Hocc & _). split_and!.
    + by rewrite (roomCount_delete ws (rooms st) i k r Hi Hocc).
    + intros c. apply roomCount_delete_le.
    + intros j e Hj. apply list_elem_of_lookup_2 in Hj.
      eapply elem_of_sublist; [exact Hj|apply sublist_delete].
  - assert (cleanupRooms ws st = st) as -> by (unfold cleanupRooms; by rewrite Hfirst).
    apply roomCount_zero in Hfirst. rewrite Hfirst. split_and!; [done|done|].
    intros j e Hj. by eapply list_elem_of_lookup_2.
Qed.

Lemma close_removes_only_the_first_room_witness :
  let st := run [Message 1 (Some (register (JStr "1111"))) 10 11;
                 Message 1 (Some (register (JStr "2222"))) 12 13] initial in
  roomCount 1 (rooms st) = 2 ∧ roomCount 1 (rooms (onClose 1 st)) = 1.
Proof.
  intros st.
  destruct (close_removes_only_the_first_room st 1) as [H _];
    [apply run_reachable, reachable_initial|].
  split; [reflexivity | exact H].
Defined.

(** ** How the registry grows and shrinks *)

Lemma Map_delete_length k (m : Map.t) :
  length (Map.delete k m) = length m ∨ S (length (Map.delete k m)) = length m.
Proof.
  induction m as [|[k0 r0] m IH]; simpl; [by left|].
  destruct (Map.sameKey k0 k); simpl; [by right|]. destruct IH as [->| <-]; auto.
Qed.

(** X16. The life cycle of rooms, read off the size of the registry: an
    event changes the number of rooms by one at most; only a [register]
    message adds a room; only a [complete] message or a close removes one. *)
Theorem registry_grows_and_shrinks e st :
  length (rooms (step e st)) = length (rooms st) ∨
  (length (rooms (step e st)) = S (length (rooms st)) ∧
   ∃ ws data t1 t2, e = Message ws (Some data) t1 t2 ∧
     Get data "type" = Some (JStr "register")) ∨
  (S (length (rooms (step e st))) = length (rooms st) ∧
   ((∃ ws, e = Close ws) ∨
    ∃ ws data t1 t2, e = Message ws (Some data) t1 t2 ∧
      Get data "type" = Some (JStr "complete"))).
Proof.
  destruct e as [ws [data|] t1 t2|ws]; unfold step.
  - rewrite onMessage_outcome.
    assert (rooms (match handleMessage ws data t1 t2 st with
                   | Returned st' => st'
                   | Thrown st' => send ws InvalidFormat st'
                   end) = rooms (stateOf (handleMessage ws data t1 t2 st))) as ->
      by by destruct (handleMessage ws data t1 t2 st).
    unfold handleMessage.
    destruct (Get data "type") as [ty|] eqn:Hty; [|by left].
    destruct (strictEqualsString ty "register") eqn:Hreg.
    { apply strictEqualsString_eq in Hreg as ->.
      destruct (Get data "code") as [code|]; [|by left].
      unfold createRoom. destruct (ToString code) as [text|]; [|by left].
      destruct (test_code text); simpl; [|by left].
      destruct (Map.has code (rooms st)); simpl; [by left|].
      right; left. unfold Map.set_new. rewrite length_app. simpl.
      split; [lia|]. by exists ws, data, t1, t2. }
    destruct (strictEqualsString ty "join").
    { destruct (Get data "code") as [code|]; [|by left].
      unfold joinRoom. repeat case_match; simpl; rewrite ?update_length; by left. }
    destruct (strictEqualsString ty "metadata").
    { unfold handleMetadata. repeat case_match; simpl; rewrite ?update_length; by left. }
    destruct (strictEqualsString ty "chunk").
    { unfold forwardChunk. repeat case_match; simpl; rewrite ?update_length; by left. }
    destruct (strictEqualsString ty "complete") eqn:Hcomplete; simpl; [|by left].
    apply strictEqualsString_eq in Hcomplete as ->.
    unfold handleTransferComplete.
    destruct (findRoomByClient ws (rooms st)) as [[i r]|]; [|by left].
    destruct (receiver r); [|by left]. simpl.
    destruct (Map_delete_length (getRoomCode ws (rooms st)) (rooms st)) as [->|Hless];
      [by left|].
    right; right. split; [done|]. right. by exists ws, data, t1, t2.
  - by left.
  - unfold onClose, cleanupRooms.
    destruct (firstRoomOf ws (rooms st)) as [[i [code r]]|]; [|by left].
    destruct (otherClient ws r); simpl;
      (destruct (Map_delete_length code (rooms st)) as [->|Hless]; [by left|]);
      right; right; (split; [done|]); left; by exists ws.
Qed.

(** ** Who is sent what *)

Lemma occupies_sender r : occupies (sender r) r = true.
Proof. unfold occupies. by rewrite Nat.eqb_refl. Qed.

Lemma occupies_receiver r x : receiver r = Some x → occupies x r = true.
Proof. intros Hr. unfold occupies. rewrite Hr, Nat.eqb_refl. apply orb_true_r. Qed.

Lemma otherClient_occupies ws r other :
  otherClient ws r = Some other → occupies other r = true.
Proof.
  unfold otherClient. destruct (Nat.eqb (sender r) ws).
  - apply occupies_receiver.
  - intros [= <-]. apply occupies_sender.
Qed.

Lemma inTheRoom_own ws st st' o : inTheRoom ws st st' [(ws, o)].
Proof. intros c o' [= -> _]%list_elem_of_singleton. by left. Qed.

Lemma inTheRoom_nil ws st st' : inTheRoom ws st st' [].
Proof. by intros c o ?%elem_of_nil. Qed.

Lemma inTheRoom_roommate ws st st' c o k r :
  (k, r) ∈ rooms st ∨ (k, r) ∈ rooms st' → roommates ws c r →
  inTheRoom ws st st' [(c, o)].
Proof.
  intros Hin Hmates c' o' Hc. apply list_elem_of_singleton in Hc.
  injection Hc as -> ->. right. eauto.
Qed.

Lemma inTheRoom_cons ws st st' x l :
  inTheRoom ws st st' [x] → inTheRoom ws st st' l → inTheRoom ws st st' (x :: l).
Proof.
  intros Hx Hl c o [Heq|Hin]%elem_of_cons; [|by apply (Hl c o)].
  apply (Hx c o). rewrite Heq. apply list_elem_of_here.
Qed.

Lemma handleMessage_recipients ws data t1 t2 st :
  let st' := onMessage ws (Some data) t1 t2 st in
  ∃ l, sent st' = sent st ++ l ∧ inTheRoom ws st st' l.
Proof.
  intros st'. unfold st'. rewrite onMessage_outcome. unfold handleMessage.
  assert (∀ o, ∃ l, sent (send ws o st) = sent st ++ l ∧
                    inTheRoom ws st (send ws o st) l) as Hreply
    by (intros o; exists [(ws, o)]; split; [done|apply inTheRoom_own]).
  assert (∃ l, sent st = sent st ++ l ∧ inTheRoom ws st st l) as Hquiet
    by (exists []; split; [by rewrite app_nil_r|apply inTheRoom_nil]).
  destruct (Get data "type") as [ty|] eqn:Hty; [|apply Hreply].
  destruct (strictEqualsString ty "register").
  { destruct (Get data "code") as [code|]; [|apply Hreply].
    unfold createRoom. destruct (ToString code) as [text|]; [|apply Hreply].
    destruct (test_code text); simpl negb; cbv iota; [|apply Hreply].
    destruct (Map.has code (rooms st)); [apply Hreply|].
    eexists [(ws, _)]. split; [done|apply inTheRoom_own]. }
  destruct (strictEqualsString ty "join").
  { destruct (Get data "code") as [code|]; [|apply Hreply].
    unfold joinRoom. destruct (ToString code) as [text|]; [|apply Hreply].
    destruct (test_code text); simpl negb; cbv iota; [|apply Hreply].
    destruct (Map.get code (rooms st)) as [[i r]|] eqn:Hget; [|apply Hreply].
    destruct (receiver r) eqn:Hrcv; [apply Hreply|].
    apply get_Some in Hget as (k & Hi & _).
    exists [(sender r, OutPeerConnected); (ws, OutConnected code)]. split.
    { simpl. by rewrite <- app_assoc. }
    apply inTheRoom_cons; [|apply inTheRoom_own].
    apply (inTheRoom_roommate _ _ _ _ _ k (joined ws t1 r)).
    - right. simpl. apply list_elem_of_lookup_2 with i. by apply update_lookup.
    - split; [by apply (occupies_receiver (joined ws t1 r))|].
      apply (occupies_sender (joined ws t1 r)). }
  destruct (strictEqualsString ty "metadata").
  { unfold handleMetadata.
    destruct (findRoomByClient ws (rooms st)) as [[i r]|] eqn:Hroom; [|apply Hquiet].
    destruct (findRoomByClient_lookup _ _ _ _ Hroom) as (k & Hi & Hocc).
    destruct (Get data "size" ≫= parseInt) as [fileSize|]; [|apply Hreply].
    destruct (greaterThan fileSize sizeLimit); [apply Hreply|].
    destruct (Get data "name" ≫= _) as [nm|]; [|apply Hreply].
    rewrite Hty. destruct (receiver r) as [rcv|] eqn:Hrcv.
    - eexists [(rcv, _)]. split; [done|].
      apply (inTheRoom_roommate _ _ _ _ _ k r).
      + left. by apply list_elem_of_lookup_2 with i.
      + split; [done|by apply occupies_receiver].
    - exists []. split; [simpl; by rewrite app_nil_r|apply inTheRoom_nil]. }
  destruct (strictEqualsString ty "chunk").
  { unfold forwardChunk.
    destruct (findRoomByClient ws (rooms st)) as [[i r]|] eqn:Hroom; [|apply Hquiet].
    destruct (findRoomByClient_lookup _ _ _ _ Hroom) as (k & Hi & Hocc).
    destruct (receiver r) as [rcv|] eqn:Hrcv; [|apply Hquiet].
    destruct (Get data "chunk") as [chunk|].
    - eexists [(rcv, _)]. split; [done|].
      apply (inTheRoom_roommate _ _ _ _ _ k r).
      + left. by apply list_elem_of_lookup_2 with i.
      + split; [done|by apply occupies_receiver].
    - eexists [(ws, _)]. split; [done|apply inTheRoom_own]. }
  destruct (strictEqualsString ty "complete"); [|apply Hreply].
  unfold handleTransferComplete.
  destruct (findRoomByClient ws (rooms st)) as [[i r]|] eqn:Hroom; [|apply Hquiet].
  destruct (findRoomByClient_lookup _ _ _ _ Hroom) as (k & Hi & Hocc).
  destruct (receiver r) as [rcv|] eqn:Hrcv; [|apply Hquiet].
  eexists [(rcv, _)]. split; [done|].
  apply (inTheRoom_roommate _ _ _ _ _ k r).
  - left. by apply list_elem_of_lookup_2 with i.
  - split; [done|by apply occupies_receiver].
Qed.

(** X17. Messages stay in the room. Whatever an event makes the server send
    is appended to what was sent before, and each of those messages goes
    either to the connection the event came from or to a connection that
    shares a room with it (before the event or after it): no message, and no
    chunk or metadata in particular, reaches a third party. *)
Theorem messages_stay_in_the_room e st :
  ∃ l, sent (step e st) = sent st ++ l ∧ inTheRoom (actor e) st (step e st) l.
Proof.
  destruct e as [ws [data|] t1 t2|ws]; unfold step, actor.
  - apply handleMessage_recipients.
  - exists [(ws, InvalidFormat)]. split; [done|apply inTheRoom_own].
  - unfold onClose, cleanupRooms.
    destruct (firstRoomOf ws (rooms st)) as [[i [code r]]|] eqn:Hfirst.
    2:{ exists []. split; [by rewrite app_nil_r|apply inTheRoom_nil]. }
    apply firstRoomOf_Some in Hfirst as (Hi & Hocc & _).
    destruct (otherClient ws r) as [other|] eqn:Hother.
    + exists [(other, PeerDisconnected)]. split; [done|].
      apply (inTheRoom_roommate _ _ _ _ _ code r).
      * left. by apply list_elem_of_lookup_2 with i.
      * split; [done|by apply otherClient_occupies with ws].
    + exists []. split; [simpl; by rewrite app_nil_r|apply inTheRoom_nil].
Qed.

(** ** After the transfer is complete *)

(** X18. Once [complete] has removed a paired room, a former occupant that
    occupied no other room is a stranger to the registry: its later
    [metadata], [chunk] and [complete] messages change nothing and are not
    answered, and its close changes nothing and notifies nobody. *)
Theorem after_complete_nothing_is_relayed st ws message i r rcv c :
  reachable st →
  findRoomByClient ws (rooms st) = Some (i, r) →
  receiver r = Some rcv →
  occupies c r = true →
  roomCount c (rooms st) ≤ 1 →
  let st' := handleTransferComplete ws message st in
  (∀ message' ty t1 t2,
     Get message' "type" = Some (JStr ty) →
     ty = "metadata" ∨ ty = "chunk" ∨ ty = "complete" →
     onMessage c (Some message') t1 t2 st' = st') ∧
  onClose c st' = st'.
Proof.
  intros (Hwf & _)%reachable_invariant Hroom Hrcv Hc Hcount st'.
  destruct (findRoomByClient_lookup _ _ _ _ Hroom) as (k & Hi & _).
  assert (findRoomByClient c (rooms st') = None) as Hnone.
  { unfold st'. rewrite (handleTransferComplete_paired ws message st i r rcv) by done.
    simpl. apply findRoomByClient_None, roomCount_zero.
    rewrite (roomCount_delete c _ i k r Hi Hc) in Hcount. lia. }
  split.
  - intros message' ty t1 t2 Hty Hrelay.
    rewrite onMessage_outcome. unfold handleMessage. rewrite Hty.
    destruct Hrelay as [-> | [-> | ->]]; simpl;
      unfold handleMetadata, forwardChunk, handleTransferComplete; by rewrite Hnone.
  - unfold onClose, cleanupRooms.
    apply findRoomByClient_None in Hnone. by rewrite Hnone.
Qed.

Lemma after_complete_nothing_is_relayed_witness :
  let st := run [Message 1 (Some (register (JStr "1234"))) 10 11;
                 Message 2 (Some (join (JStr "1234"))) 12 12] initial in
  let st' := handleTransferComplete 1 complete st in
  onMessage 2 (Some (JObj [("type", JStr "chunk"); ("chunk", JStr "late")])) 20 20 st' = st' ∧
  onClose 2 st' = st'.
Proof.
  intros st st'.
  destruct (after_complete_nothing_is_relayed st 1 complete 0 (Room 1 (Some 2) None 10 12) 2 2)
    as [Hmsg Hclose];
    [apply run_reachable, reachable_initial|reflexivity|reflexivity|reflexivity
    |vm_compute; lia|].
  split; [|exact Hclose].
  apply (Hmsg _ "chunk"); [reflexivity|right; by left].
Defined.

(** ** What is stored as metadata *)

Lemma slice0_bounded v nm :
  slice0 v 256 = Some nm →
  match nm with
  | JStr s => String.length s ≤ 256
  | JArr elems => length elems ≤ 256
  | _ => False
  end.
Proof.
  destruct v; simpl; try discriminate; intros [= <-].
  - rewrite substring0_length. lia.
  - rewrite length_take. lia.
Qed.

Lemma Forall_update (P : key * room → Prop) i f (m : Map.t) :
  Forall P m → (∀ k r, P (k, r) → m !! i = Some (k, r) → P (k, f r)) →
  Forall P (Map.update i f m).
Proof.
  intros Hm Hf. apply Forall_forall. intros [k r'] [Hin|(r & Hi & ->)]%elem_of_update.
  - rewrite Forall_forall in Hm. by apply Hm.
  - apply Hf; [|done]. rewrite Forall_forall in Hm. apply Hm.
    by apply list_elem_of_lookup_2 with i.
Qed.

Lemma Forall_Map_delete (P : key * room → Prop) k (m : Map.t) :
  Forall P m → Forall P (Map.delete k m).
Proof.
  rewrite !Forall_forall. intros Hm e He. apply Hm. by apply elem_of_Map_delete with k.
Qed.

Lemma handleMessage_metadata ws message t1 t2 st :
  Forall roomMetadataOk (rooms st) →
  Forall roomMetadataOk (rooms (stateOf (handleMessage ws message t1 t2 st))).
Proof.
  intros Hst. unfold handleMessage.
  destruct (Get message "type") as [ty|] eqn:Hty; [|done].
  destruct (strictEqualsString ty "register").
  { destruct (Get message "code") as [code|]; [|done].
    unfold createRoom. repeat case_match; simpl; try done;
      unfold Map.set_new; (apply Forall_app; split; [done|]);
      apply Forall_singleton; by intros md. }
  destruct (strictEqualsString ty "join").
  { destruct (Get message "code") as [code|]; [|done].
    unfold joinRoom. repeat case_match; simpl; try done;
      (apply Forall_update; [done|]); intros ? ? Hr _; exact Hr. }
  destruct (strictEqualsString ty "metadata") eqn:Hmeta.
  { apply strictEqualsString_eq in Hmeta as ->. unfold handleMetadata.
    destruct (findRoomByClient ws (rooms st)) as [[i r0]|]; [|done].
    destruct (Get message "size" ≫= parseInt) as [fileSize|]; [|done].
    destruct (greaterThan fileSize sizeLimit) eqn:Hgt; [done|].
    destruct (Get message "name" ≫= _) as [nm|] eqn:Hname; [|done].
    rewrite Hty.
    assert (Forall roomMetadataOk
              (Map.update i (withMetadata (Metadata nm fileSize (JStr "metadata")) t1)
                 (rooms st))) as Hok.
    { apply Forall_update; [done|]. intros k r _ _ md [= <-].
      split_and!; [done|done|]. simpl.
      destruct (Get message "name") as [v|]; [|done]. by apply slice0_bounded with v. }
    by destruct (receiver r0). }
  destruct (strictEqualsString ty "chunk").
  { unfold forwardChunk. repeat case_match; simpl; try done;
      (apply Forall_update; [done|]; intros ? ? Hr _; exact Hr). }
  destruct (strictEqualsString ty "complete"); simpl; [|done].
  unfold handleTransferComplete. repeat case_match; simpl; try done;
    by apply Forall_Map_delete.
Qed.

(** X19. At every reachable state every stored metadata object is within
    bounds: its size is [NaN] or at most 200*1024*1024, its name is a string
    of at most 256 characters (or an array of at most 256 elements), and its
    [type] is the string "metadata", the tag of the message it came in: the
    [type] field names the kind of message, so no file type is ever stored
    or forwarded. *)
Theorem stored_metadata_within_bounds st k r md :
  reachable st →
  (k, r) ∈ rooms st →
  meta r = Some md →
  type md = JStr "metadata" ∧
  (size md = NaN ∨ ∃ z, size md = Num z ∧ (z ≤ 200 * 1024 * 1024)%Z) ∧
  ((∃ s, name md = JStr s ∧ String.length s ≤ 256) ∨
   (∃ elems, name md = JArr elems ∧ length elems ≤ 256)).
Proof.
  intros Hreach Hin Hmeta.
  assert (Forall roomMetadataOk (rooms st)) as Hall.
  { clear k r md Hin Hmeta. induction Hreach as [|e st _ IH]; [constructor|].
    destruct e as [ws [data|] t1 t2|ws]; unfold step.
    - rewrite onMessage_outcome.
      pose proof (handleMessage_metadata ws data t1 t2 st IH) as H.
      by destruct (handleMessage ws data t1 t2 st).
    - done.
    - unfold onClose, cleanupRooms.
      destruct (firstRoomOf ws (rooms st)) as [[i [code r]]|]; [|done].
      destruct (otherClient ws r); simpl; by apply Forall_Map_delete. }
  rewrite Forall_forall in Hall. destruct (Hall (k, r) Hin md Hmeta) as (Hty & Hsize & Hname).
  split_and!; [done| |].
  - destruct (size md) as [|z]; [by left|]. right. exists z. split; [done|].
    simpl in Hsize. apply Z.ltb_ge in Hsize. unfold sizeLimit in Hsize. lia.
  - destruct (name md); try done; [left|right]; eauto.
Qed.

Lemma stored_metadata_within_bounds_witness :
  let message := JObj [("type", JStr "metadata"); ("name", JStr "a.bin");
                       ("size", JNum "10"); ("mime", JStr "text/plain")] in
  let st := run [Message 1 (Some (register (JStr "1234"))) 10 11;
                 Message 1 (Some message) 12 12] initial in
  let md := Metadata (JStr "a.bin") (Num 10) (JStr "metadata") in
  rooms st = [(KPrim (JStr "1234"), Room 1 None (Some md) 10 12)] ∧
  type md = JStr "metadata".
Proof.
  intros message st md.
  destruct (stored_metadata_within_bounds st (KPrim (JStr "1234"))
              (Room 1 None (Some md) 10 12) md) as (Hty & _).
  - apply run_reachable, reachable_initial.
  - vm_compute. apply list_elem_of_here.
  - reflexivity.
  - split; [reflexivity | exact Hty].
Defined.
